(** * The resilient request pipeline of [utils/api_client.py]

    A shallow embedding of [APIClient]: the circuit breaker, the rate
    limiter, the retry loop of [_make_request] and the statistics
    snapshot.  The mutable attributes of [self] and the environment the
    client runs in (clock, transport, sleeps) are threaded through a
    small state-and-exception monad, in which a raised exception keeps
    the mutations made before it, as in Python.

    Numbers: counters and status codes are [Z]; times, delays and the
    float-valued options are exact rationals [Q]: the rounding and the
    overflow of floats are not modelled.  The headers of a response are an
    association list: [response.headers] ignores the case of the names,
    the [dict] made of it does not.  [int] is modelled on ASCII strings.
    The transport is a script: the outcome of its k-th call and the time
    that call takes. *)

From Stdlib Require Import ZArith QArith Qminmax Qpower Qabs List String Ascii Bool Lia Lqa.
Import ListNotations.

Local Open Scope Z_scope.

(** ** Data model *)

(** [circuit_breaker_state]: 'closed', 'open', 'half-open'. *)
Inductive breaker_state : Type :=
| st_closed
| st_open
| st_half_open.

Definition breaker_state_eqb (a b : breaker_state) : bool :=
  match a, b with
  | st_closed, st_closed | st_open, st_open | st_half_open, st_half_open => true
  | _, _ => false
  end.

(** The exception classes of the module, and the two kinds of exception
    the transport can raise: [asyncio.TimeoutError], and any other
    [Exception] (kept with its type name). *)
Inductive exc_class : Type :=
| APIError
| APITimeoutError
| APIAuthenticationError
| APIRateLimitError
| AsyncioTimeoutError
| OtherException (type_name : string).

(** The messages the module formats, kept structured. *)
Inductive message : Type :=
| CircuitOpenMsg                               (* "Circuit breaker is open - requests blocked" *)
| RateLimitResetMsg (wait_time : Q)            (* "Rate limit exceeded. Reset in {wait_time:.1f} seconds" *)
| RateLimitedMsg (status : Z)                  (* "Rate limit exceeded: {status}" *)
| AuthFailedMsg (status : Z)                   (* "Authentication failed: {status}" *)
| ClientErrorMsg (status : Z) (text : string)  (* "Client error: {status} - {text}" *)
| ServerErrorMsg (status : Z) (text : string)  (* "Server error: {status} - {text}" *)
| TimeoutMsg (retries : Z)                     (* "Request timeout after {max_retries} retries" *)
| RequestFailedMsg (retries : Z) (e : message) (* "Request failed after {max_retries} retries: {e}" *)
| TransportMsg (text : string).

(** An exception value: [APIError.__init__(message, status_code, response_data)]. *)
Record exn : Type := mkExn {
  exn_class : exc_class;
  exn_message : message;
  status_code : option Z;
  response_data : option string
}.

Definition headers : Type := list (string * string).

Record response : Type := mkResponse {
  status : Z;
  resp_headers : headers;
  resp_text : string
}.

(** What one call of [self.session.request] does: it answers, times out
    ([asyncio.TimeoutError]) or fails with another exception. *)
Inductive outcome : Type :=
| Responded (r : response)
| TimedOut
| Failed (type_name : string) (text : string).

(** The transport: the outcome of the k-th call and the time it takes. *)
Definition transport : Type := nat -> outcome * Q.

(** The options read by [__init__]. *)
Record Config : Type := mkConfig {
  base_url : string;
  max_retries : Z;
  retry_delay : Q;
  retry_backoff : Q;
  max_retry_delay : Q;
  circuit_breaker_enabled : bool;
  circuit_breaker_threshold : Z;
  circuit_breaker_timeout : Q
}.

(** [self.rate_limit_window = 60]. *)
Definition rate_limit_window : Q := 60.

(** The mutable attributes of [self], followed by the environment: the
    clock, the number of transport calls made so far and the durations
    passed to [asyncio.sleep], oldest first. *)
Record State : Type := mkState {
  session : bool;
  rate_limit_remaining : option Z;
  rate_limit_reset : option Z;
  rate_limit_requests : list Q;
  request_count : Z;
  error_count : Z;
  last_request_time : option Q;
  circuit_breaker_state : breaker_state;
  circuit_breaker_failure_count : Z;
  circuit_breaker_last_failure_time : option Q;
  clock : Q;
  transport_calls : nat;
  slept : list Q
}.

Definition set_session v s :=
  mkState v (rate_limit_remaining s) (rate_limit_reset s) (rate_limit_requests s)
    (request_count s) (error_count s) (last_request_time s)
    (circuit_breaker_state s) (circuit_breaker_failure_count s)
    (circuit_breaker_last_failure_time s) (clock s) (transport_calls s) (slept s).

Definition set_rate_limit_remaining v s :=
  mkState (session s) v (rate_limit_reset s) (rate_limit_requests s)
    (request_count s) (error_count s) (last_request_time s)
    (circuit_breaker_state s) (circuit_breaker_failure_count s)
    (circuit_breaker_last_failure_time s) (clock s) (transport_calls s) (slept s).

Definition set_rate_limit_reset v s :=
  mkState (session s) (rate_limit_remaining s) v (rate_limit_requests s)
    (request_count s) (error_count s) (last_request_time s)
    (circuit_breaker_state s) (circuit_breaker_failure_count s)
    (circuit_breaker_last_failure_time s) (clock s) (transport_calls s) (slept s).

Definition set_rate_limit_requests v s :=
  mkState (session s) (rate_limit_remaining s) (rate_limit_reset s) v
    (request_count s) (error_count s) (last_request_time s)
    (circuit_breaker_state s) (circuit_breaker_failure_count s)
    (circuit_breaker_last_failure_time s) (clock s) (transport_calls s) (slept s).

Definition set_request_count v s :=
  mkState (session s) (rate_limit_remaining s) (rate_limit_reset s) (rate_limit_requests s)
    v (error_count s) (last_request_time s)
    (circuit_breaker_state s) (circuit_breaker_failure_count s)
    (circuit_breaker_last_failure_time s) (clock s) (transport_calls s) (slept s).

Definition set_error_count v s :=
  mkState (session s) (rate_limit_remaining s) (rate_limit_reset s) (rate_limit_requests s)
    (request_count s) v (last_request_time s)
    (circuit_breaker_state s) (circuit_breaker_failure_count s)
    (circuit_breaker_last_failure_time s) (clock s) (transport_calls s) (slept s).

Definition set_last_request_time v s :=
  mkState (session s) (rate_limit_remaining s) (rate_limit_reset s) (rate_limit_requests s)
    (request_count s) (error_count s) v
    (circuit_breaker_state s) (circuit_breaker_failure_count s)
    (circuit_breaker_last_failure_time s) (clock s) (transport_calls s) (slept s).

Definition set_circuit_breaker_state v s :=
  mkState (session s) (rate_limit_remaining s) (rate_limit_reset s) (rate_limit_requests s)
    (request_count s) (error_count s) (last_request_time s)
    v (circuit_breaker_failure_count s)
    (circuit_breaker_last_failure_time s) (clock s) (transport_calls s) (slept s).

Definition set_circuit_breaker_failure_count v s :=
  mkState (session s) (rate_limit_remaining s) (rate_limit_reset s) (rate_limit_requests s)
    (request_count s) (error_count s) (last_request_time s)
    (circuit_breaker_state s) v
    (circuit_breaker_last_failure_time s) (clock s) (transport_calls s) (slept s).

Definition set_circuit_breaker_last_failure_time v s :=
  mkState (session s) (rate_limit_remaining s) (rate_limit_reset s) (rate_limit_requests s)
    (request_count s) (error_count s) (last_request_time s)
    (circuit_breaker_state s) (circuit_breaker_failure_count s)
    v (clock s) (transport_calls s) (slept s).

Definition set_clock v s :=
  mkState (session s) (rate_limit_remaining s) (rate_limit_reset s) (rate_limit_requests s)
    (request_count s) (error_count s) (last_request_time s)
    (circuit_breaker_state s) (circuit_breaker_failure_count s)
    (circuit_breaker_last_failure_time s) v (transport_calls s) (slept s).

Definition set_transport_calls v s :=
  mkState (session s) (rate_limit_remaining s) (rate_limit_reset s) (rate_limit_requests s)
    (request_count s) (error_count s) (last_request_time s)
    (circuit_breaker_state s) (circuit_breaker_failure_count s)
    (circuit_breaker_last_failure_time s) (clock s) v (slept s).

Definition set_slept v s :=
  mkState (session s) (rate_limit_remaining s) (rate_limit_reset s) (rate_limit_requests s)
    (request_count s) (error_count s) (last_request_time s)
    (circuit_breaker_state s) (circuit_breaker_failure_count s)
    (circuit_breaker_last_failure_time s) (clock s) (transport_calls s) v.

(** ** State and exceptions *)

Inductive result (A : Type) : Type :=
| Ok (a : A)
| Raise (e : exn).
Arguments Ok {A} a.
Arguments Raise {A} e.

Definition M (A : Type) : Type := State -> State * result A.

Definition ret {A} (a : A) : M A := fun s => (s, Ok a).

Definition bind {A B} (c : M A) (k : A -> M B) : M B :=
  fun s => match c s with
           | (s', Ok a) => k a s'
           | (s', Raise e) => (s', Raise e)
           end.

Definition raise {A} (e : exn) : M A := fun s => (s, Raise e).

(** [try: c  except ... as e: h e]. *)
Definition try_except {A} (c : M A) (h : exn -> M A) : M A :=
  fun s => match c s with
           | (s', Ok a) => (s', Ok a)
           | (s', Raise e) => h e s'
           end.

Definition get : M State := fun s => (s, Ok s).
Definition modify (f : State -> State) : M unit := fun s => (f s, Ok tt).

Declare Scope monad_scope.
Delimit Scope monad_scope with monad.
Notation "x <- c ;; k" := (bind c (fun x => k))
  (at level 61, c at next level, right associativity) : monad_scope.
Notation "c ;; k" := (bind c (fun _ => k))
  (at level 61, right associativity) : monad_scope.
Local Open Scope monad_scope.

(** ** The environment *)

Definition Qltb (a b : Q) : bool := negb (Qle_bool b a).

(** [datetime.utcnow()] and [time.time()] read the same clock. *)
Definition utcnow : M Q := fun s => (s, Ok (clock s)).
Definition time_time : M Q := fun s => (s, Ok (clock s)).

(** [await asyncio.sleep(d)]: a delay that is not positive does not wait. *)
Definition sleep (d : Q) : M unit :=
  modify (fun s => set_slept (slept s ++ [d]) (set_clock (clock s + Qmax d 0)%Q s)).

(** [async with self.session.request(...) as response]. *)
Definition session_request (tr : transport) : M response :=
  fun s =>
    let '(o, dt) := tr (transport_calls s) in
    let s' := set_transport_calls (S (transport_calls s)) (set_clock (clock s + dt)%Q s) in
    match o with
    | Responded r => (s', Ok r)
    | TimedOut => (s', Raise (mkExn AsyncioTimeoutError (TransportMsg "") None None))
    | Failed name text => (s', Raise (mkExn (OtherException name) (TransportMsg text) None None))
    end.

(** ** Builtins: [int(str)] and dictionary lookup *)

(** The blanks that [int] skips around the number in an ASCII string:
    tab, line feed, vertical tab, form feed, carriage return, space. *)
Definition is_space (c : ascii) : bool :=
  let n := nat_of_ascii c in
  (((9 <=? n) && (n <=? 13)) || (n =? 32))%nat.

Fixpoint lstrip (l : list ascii) : list ascii :=
  match l with
  | c :: l' => if is_space c then lstrip l' else l
  | [] => []
  end.

Definition strip (l : list ascii) : list ascii := rev (lstrip (rev (lstrip l))).

Definition digit_val (c : ascii) : option Z :=
  let n := nat_of_ascii c in
  if ((48 <=? n) && (n <=? 57))%nat then Some (Z.of_nat (n - 48)) else None.

(** Decimal digits, with single underscores allowed between two digits. *)
Fixpoint parse_digits (acc : Z) (after_digit : bool) (l : list ascii) : option Z :=
  match l with
  | [] => if after_digit then Some acc else None
  | c :: l' =>
      if Ascii.eqb c "_"%char
      then (if after_digit then parse_digits acc false l' else None)
      else match digit_val c with
           | Some d => parse_digits (10 * acc + d) true l'
           | None => None
           end
  end.

(** [int(s)] for an ASCII string: [None] stands for [ValueError].  A
    string with a character outside ASCII is refused here; what [int]
    does with it is not modelled. *)
Definition py_int (s : string) : option Z :=
  match strip (list_ascii_of_string s) with
  | c :: l =>
      if Ascii.eqb c "-"%char then option_map Z.opp (parse_digits 0 false l)
      else if Ascii.eqb c "+"%char then parse_digits 0 false l
      else parse_digits 0 false (c :: l)
  | [] => None
  end.

(** [key in headers] and [headers[key]] on [dict(response.headers)]:
    [None] when the key is absent. *)
Fixpoint lookup (key : string) (h : headers) : option string :=
  match h with
  | [] => None
  | (k, v) :: h' => if String.eqb k key then Some v else lookup key h'
  end.

(** ASCII letters in lower case. *)
Definition lower (c : ascii) : ascii :=
  let n := nat_of_ascii c in
  if ((65 <=? n) && (n <=? 90))%nat then ascii_of_nat (n + 32) else c.

Fixpoint lower_string (s : string) : string :=
  match s with
  | EmptyString => EmptyString
  | String c s' => String (lower c) (lower_string s')
  end.

(** Lookup in the headers of a response as the response has them, in a
    multi-dictionary that ignores the case of the names: the value of
    the first header whose name is [key] up to case. *)
Fixpoint lookup_ci (key : string) (h : headers) : option string :=
  match h with
  | [] => None
  | (k, v) :: h' =>
      if String.eqb (lower_string k) (lower_string key) then Some v else lookup_ci key h'
  end.

(** [response.headers.get(key, default)]. *)
Definition headers_get (key default : string) (h : headers) : string :=
  match lookup_ci key h with
  | Some v => v
  | None => default
  end.

(** ** The client *)

(** [__init__]: the attributes of a fresh client, at time [now]. *)
Definition init (now : Q) : State :=
  mkState false None None [] 0 0 None st_closed 0 None now 0%nat [].

(** [initialize] and [close], as far as the attributes go. *)
Definition initialize : M unit :=
  s <- get ;;
  if session s then ret tt else modify (set_session true).

Definition close : M unit := modify (set_session false).

Section Client.

Variable cfg : Config.
Variable tr : transport.

Definition _check_circuit_breaker : M unit :=
  if negb (circuit_breaker_enabled cfg) then ret tt else
  now <- utcnow ;;
  s <- get ;;
  match circuit_breaker_state s with
  | st_open =>
      if match circuit_breaker_last_failure_time s with
         | Some t => Qltb (circuit_breaker_timeout cfg) (now - t)%Q
         | None => false
         end
      then modify (set_circuit_breaker_state st_half_open)
      else raise (mkExn APIError CircuitOpenMsg None None)
  | st_half_open => ret tt
  | st_closed => ret tt
  end.

Definition _update_circuit_breaker (success : bool) : M unit :=
  if negb (circuit_breaker_enabled cfg) then ret tt else
  if success then
    s <- get ;;
    match circuit_breaker_state s with
    | st_half_open =>
        modify (set_circuit_breaker_state st_closed) ;;
        modify (set_circuit_breaker_failure_count 0)
    | _ => ret tt
    end
  else
    modify (fun s => set_circuit_breaker_failure_count (circuit_breaker_failure_count s + 1) s) ;;
    now <- utcnow ;;
    modify (set_circuit_breaker_last_failure_time (Some now)) ;;
    s <- get ;;
    if (circuit_breaker_threshold cfg <=? circuit_breaker_failure_count s)
       && negb (breaker_state_eqb (circuit_breaker_state s) st_open)
    then modify (set_circuit_breaker_state st_open)
    else ret tt.

(** The test of [_check_rate_limit]: the server said nothing is left and
    its reset time, which is set and not 0, is still ahead. *)
Definition rate_limited (now : Q) (s : State) : bool :=
  match rate_limit_remaining s, rate_limit_reset s with
  | Some remaining, Some reset =>
      (remaining <=? 0) && negb (reset =? 0) && Qltb now (inject_Z reset)
  | _, _ => false
  end.

Definition _check_rate_limit : M unit :=
  now <- time_time ;;
  modify (fun s => set_rate_limit_requests
            (filter (fun req_time => Qltb (now - req_time)%Q rate_limit_window)
                    (rate_limit_requests s)) s) ;;
  s <- get ;;
  if rate_limited now s
  then match rate_limit_reset s with
       | Some reset =>
           raise (mkExn APIRateLimitError (RateLimitResetMsg (inject_Z reset - now)%Q) None None)
       | None => ret tt
       end
  else ret tt.

(** The [try] of [_update_rate_limit_info] stops at the first value that
    [int] refuses, and the [except] swallows the error. *)
Definition _update_rate_limit_info (h : headers) : M unit :=
  match lookup "X-RateLimit-Remaining" h with
  | Some v =>
      match py_int v with
      | Some n =>
          modify (set_rate_limit_remaining (Some n)) ;;
          match lookup "X-RateLimit-Reset" h with
          | Some v' =>
              match py_int v' with
              | Some n' => modify (set_rate_limit_reset (Some n'))
              | None => ret tt
              end
          | None => ret tt
          end
      | None => ret tt
      end
  | None =>
      match lookup "X-RateLimit-Reset" h with
      | Some v' =>
          match py_int v' with
          | Some n' => modify (set_rate_limit_reset (Some n'))
          | None => ret tt
          end
      | None => ret tt
      end
  end.

(** [min(self.retry_delay * (self.retry_backoff ** attempt), self.max_retry_delay)],
    in exact arithmetic: the [OverflowError] that [**] raises on floats
    when the power leaves their range is not modelled. *)
Definition backoff_delay (attempt : Z) : Q :=
  Qmin (retry_delay cfg * retry_backoff cfg ^ attempt)%Q (max_retry_delay cfg).

(** How one pass through the body of the [for] ends when nothing is
    raised: [continue], or [return response]. *)
Inductive flow : Type :=
| Continue
| Return (r : response).

(** "Handle different status codes": the chain of tests on
    [response.status], down to the success case. *)
Definition handle_status (attempt : Z) (r : response) : M flow :=
  if status r =? 429 then
    let retry_after := headers_get "Retry-After" "60" (resp_headers r) in
    let wait_time := match py_int retry_after with
                     | Some n => n
                     | None => 60
                     end in
    if attempt <? max_retries cfg then
      sleep (inject_Z wait_time) ;;
      ret Continue
    else
      raise (mkExn APIRateLimitError (RateLimitedMsg (status r)) None None)
  else if status r =? 401 then
    raise (mkExn APIAuthenticationError (AuthFailedMsg (status r)) None None)
  else if (400 <=? status r) && (status r <? 500) then
    _update_circuit_breaker false ;;
    raise (mkExn APIError (ClientErrorMsg (status r) (resp_text r))
                 (Some (status r)) (Some (resp_text r)))
  else if 500 <=? status r then
    if attempt <? max_retries cfg then
      sleep (backoff_delay attempt) ;;
      ret Continue
    else
      _update_circuit_breaker false ;;
      raise (mkExn APIError (ServerErrorMsg (status r) (resp_text r))
                   (Some (status r)) (Some (resp_text r)))
  else
    _update_circuit_breaker true ;;
    ret (Return r).

(** The body of the [try] for one [attempt]. *)
Definition attempt_body (attempt : Z) : M flow :=
  start_time <- time_time ;;
  modify (fun s => set_rate_limit_requests (rate_limit_requests s ++ [start_time]) s) ;;
  r <- session_request tr ;;
  modify (fun s => set_request_count (request_count s + 1) s) ;;
  now <- utcnow ;;
  modify (set_last_request_time (Some now)) ;;
  _update_rate_limit_info (resp_headers r) ;;
  handle_status attempt r.

(** [except asyncio.TimeoutError:] *)
Definition on_timeout (attempt : Z) : M flow :=
  if attempt <? max_retries cfg then
    sleep (backoff_delay attempt) ;;
    ret Continue
  else
    modify (fun s => set_error_count (error_count s + 1) s) ;;
    _update_circuit_breaker false ;;
    raise (mkExn APITimeoutError (TimeoutMsg (max_retries cfg)) None None).

(** [except Exception as e:] *)
Definition on_exception (attempt : Z) (e : exn) : M flow :=
  if attempt <? max_retries cfg then
    sleep (backoff_delay attempt) ;;
    ret Continue
  else
    modify (fun s => set_error_count (error_count s + 1) s) ;;
    _update_circuit_breaker false ;;
    raise (mkExn APIError (RequestFailedMsg (max_retries cfg) (exn_message e)) None None).

(** One iteration of the loop: the [try] with its two handlers.  Every
    exception class of the model other than [asyncio.TimeoutError] is an
    [Exception] and none derives from [asyncio.TimeoutError]. *)
Definition attempt_iter (attempt : Z) : M flow :=
  try_except (attempt_body attempt)
    (fun e => match exn_class e with
              | AsyncioTimeoutError => on_timeout attempt
              | _ => on_exception attempt e
              end).

(** [for attempt in range(...)], with [n] iterations left; a loop that
    runs out returns [None]. *)
Fixpoint for_attempts (n : nat) (attempt : Z) : M (option response) :=
  match n with
  | O => ret None
  | S n' =>
      f <- attempt_iter attempt ;;
      match f with
      | Continue => for_attempts n' (attempt + 1)
      | Return r => ret (Some r)
      end
  end.

(** [_make_request].  The method, endpoint, data, parameters, headers and
    timeout only shape what is sent: the transport stands for them. *)
Definition _make_request : M (option response) :=
  initialize ;;
  _check_circuit_breaker ;;
  _check_rate_limit ;;
  for_attempts (Z.to_nat (max_retries cfg + 1)) 0.

(** [a / b] on integers: [ZeroDivisionError] when [b] is 0. *)
Definition truediv (a b : Z) : M Q :=
  if b =? 0
  then raise (mkExn (OtherException "ZeroDivisionError") (TransportMsg "division by zero") None None)
  else ret (inject_Z a / inject_Z b)%Q.

Record Stats : Type := mkStats {
  stats_base_url : string;
  stats_request_count : Z;
  stats_error_count : Z;
  stats_error_rate : Q;
  stats_last_request_time : option Q;
  stats_circuit_breaker_state : breaker_state;
  stats_circuit_breaker_failure_count : Z;
  stats_rate_limit_remaining : option Z;
  stats_rate_limit_reset : option Z;
  stats_session_active : bool
}.

Definition get_stats : M Stats :=
  s <- get ;;
  error_rate <- truediv (error_count s) (Z.max (request_count s) 1) ;;
  ret (mkStats (base_url cfg) (request_count s) (error_count s) error_rate
               (last_request_time s) (circuit_breaker_state s)
               (circuit_breaker_failure_count s) (rate_limit_remaining s)
               (rate_limit_reset s) (session s)).

Definition reset_stats : M unit :=
  modify (set_request_count 0) ;;
  modify (set_error_count 0) ;;
  modify (set_last_request_time None) ;;
  modify (set_circuit_breaker_failure_count 0) ;;
  modify (set_circuit_breaker_last_failure_time None) ;;
  modify (set_circuit_breaker_state st_closed).

End Client.

(** ** Vocabulary of the statements *)

(** The three attributes of the breaker. *)
Definition same_breaker (s s' : State) : Prop :=
  circuit_breaker_state s' = circuit_breaker_state s /\
  circuit_breaker_failure_count s' = circuit_breaker_failure_count s /\
  circuit_breaker_last_failure_time s' = circuit_breaker_last_failure_time s.



(** What holds of the breaker in every state the client reaches: the
    count never goes below 0, and a breaker that is not closed has
    reached its threshold and remembers when it last failed. *)
Definition breaker_inv (cfg : Config) (s : State) : Prop :=
  0 <= circuit_breaker_failure_count s /\
  (circuit_breaker_state s <> st_closed ->
   circuit_breaker_threshold cfg <= circuit_breaker_failure_count s /\
   circuit_breaker_last_failure_time s <> None).

(** A computation keeps a property of the state, however it ends. *)
Definition preserves {A} (P : State -> Prop) (c : M A) : Prop :=
  forall s, P s -> P (fst (c s)).

(** The defaults of [__init__]. *)
Definition default_config : Config :=
  mkConfig "https://api.example.com" 3 1 2 60 true 5 300.

(** A transport that always answers 200 at once. *)
Definition always_ok : transport :=
  fun _ => (Responded (mkResponse 200 [] "ok"), 0%Q).

(** Whether an outcome is a failure: an exception of the transport, or
    a status that [handle_status] does not take for a success. *)
Definition is_failure (o : outcome) : bool :=
  match o with
  | Responded r => 400 <=? status r
  | TimedOut => true
  | Failed _ _ => true
  end.

(** The failures that the retry branches of the code handle: a status
    of 500 or more, 429, a timeout, an exception of the transport. *)
Definition is_retryable (o : outcome) : bool :=
  match o with
  | Responded r => (status r =? 429) || (500 <=? status r)
  | TimedOut => true
  | Failed _ _ => true
  end.

(** The state in which the answer of the transport is looked at: the
    attempt is recorded in the window, the call has taken [dt], and the
    counters and the rate-limit attributes are updated. *)
Definition received (dt : Q) (r : response) (s : State) : State :=
  fst (_update_rate_limit_info (resp_headers r)
         (set_last_request_time (Some (clock s + dt)%Q)
            (set_request_count (request_count s + 1)
               (set_transport_calls (S (transport_calls s))
                  (set_clock (clock s + dt)%Q
                     (set_rate_limit_requests (rate_limit_requests s ++ [clock s]) s)))))).

(** The state in which an exception of the transport is handled. *)
Definition interrupted (dt : Q) (s : State) : State :=
  set_transport_calls (S (transport_calls s))
    (set_clock (clock s + dt)%Q
       (set_rate_limit_requests (rate_limit_requests s ++ [clock s]) s)).

(** The state after a failure is reported to the breaker, and after the
    error counter is incremented. *)
Definition reported (cfg : Config) (s : State) : State :=
  fst (_update_circuit_breaker cfg false s).

Definition counted (s : State) : State :=
  set_error_count (error_count s + 1) s.

(** The state after [asyncio.sleep(d)]. *)
Definition waited (d : Q) (s : State) : State :=
  set_slept (slept s ++ [d]) (set_clock (clock s + Qmax d 0)%Q s).

(** The error that the catch-all handler raises on the last attempt. *)
Definition request_failed (cfg : Config) (m : message) : exn :=
  mkExn APIError (RequestFailedMsg (max_retries cfg) m) None None.

(** What [_make_request] does before its loop: the session is opened
    if need be, then the breaker and the rate limiter are asked. *)
Definition admission (cfg : Config) : M unit :=
  bind initialize (fun _ => bind (_check_circuit_breaker cfg) (fun _ => _check_rate_limit)).

(** A breaker of threshold 2. *)
Definition threshold2 : Config :=
  mkConfig "https://api.example.com" 3 1 2 60 true 2 300.
Definition tripped : State :=
  fst (_update_circuit_breaker threshold2 false
         (set_clock 2 (fst (_update_circuit_breaker threshold2 false (set_clock 1 (init 0)))))).

(** The same client, well after the cooldown. *)
Definition cooled : State := set_clock 400 tripped.



Definition unavailable_then_ok : transport :=
  fun k => match k with
           | O => (Responded (mkResponse 503 [] "unavailable"), 0%Q)
           | _ => (Responded (mkResponse 200 [] "ok"), 0%Q)
           end.

Definition always_unavailable : transport :=
  fun _ => (Responded (mkResponse 503 [] "unavailable"), 0%Q).

Definition not_found_then_ok : transport :=
  fun k => match k with
           | O => (Responded (mkResponse 404 [] "not found"), 0%Q)
           | _ => (Responded (mkResponse 200 [] "ok"), 0%Q)
           end.

Definition unauthorized_then_ok : transport :=
  fun k => match k with
           | O => (Responded (mkResponse 401 [] "unauthorized"), 0%Q)
           | _ => (Responded (mkResponse 200 [] "ok"), 0%Q)
           end.


(** A client that knows, at time 50, that the quota is used up until
    time 100. *)
Definition out_of_quota : State :=
  set_rate_limit_reset (Some 100) (set_rate_limit_remaining (Some 0) (init 50)).

(** Two retries, the other options as by default. *)
Definition two_retries : Config :=
  mkConfig "https://api.example.com" 2 1 2 60 true 5 300.

(** A transport that always answers 404 at once. *)
Definition always_not_found : transport :=
  fun _ => (Responded (mkResponse 404 [] "not found"), 0%Q).



(** A 429 whose Retry-After, spelt in lower case, is not a number. *)
Definition retry_after_soon : transport :=
  fun k => match k with
           | O => (Responded (mkResponse 429 [("retry-after", "soon")%string] "slow down"), 0%Q)
           | _ => (Responded (mkResponse 200 [] "ok"), 0%Q)
           end.


(** A string of ASCII characters only. *)
Definition is_ascii (s : string) : bool :=
  forallb (fun c => (nat_of_ascii c <? 128)%nat) (list_ascii_of_string s).

(** The powers that the retry delays take stay well inside the range of
    a float, so that [**] does not raise [OverflowError] in the code. *)
Definition no_overflow (cfg : Config) : Prop :=
  forall n, 0 <= n < max_retries cfg -> (Qabs (retry_backoff cfg ^ n) <= 2 ^ 1023)%Q.

(** ** The rest of the client *)

(** The classes that [except APIError] catches: [APIError] and the three
    classes derived from it. *)
Definition is_api_error (c : exc_class) : bool :=
  match c with
  | APIError | APITimeoutError | APIAuthenticationError | APIRateLimitError => true
  | AsyncioTimeoutError | OtherException _ => false
  end.

Section HealthCheck.

Variable cfg : Config.
Variable tr : transport.

(** The [for endpoint in health_endpoints] of [health_check]: a call
    that returns a response of status below 400 ends the loop with
    [True]; an [APIError] moves on to the next endpoint; [response.status]
    on a call that returned [None] raises [AttributeError]. *)
Fixpoint health_endpoints_loop (endpoints : list string) : M bool :=
  match endpoints with
  | [] => ret false
  | _ :: rest =>
      healthy <- try_except
                   (response <- _make_request cfg tr ;;
                    match response with
                    | Some r => ret (status r <? 400)
                    | None =>
                        raise (mkExn (OtherException "AttributeError")
                                     (TransportMsg "'NoneType' object has no attribute 'status'")
                                     None None)
                    end)
                   (fun e => if is_api_error (exn_class e) then ret false else raise e) ;;
      if healthy then ret true else health_endpoints_loop rest
  end.

(** [health_check]: the outer [except Exception] answers [False]. *)
Definition health_check : M bool :=
  try_except (health_endpoints_loop ["/health"; "/ping"; "/status"; "/"]%string)
             (fun _ => ret false).

End HealthCheck.

(** The attributes that [_get_default_headers] reads. *)
Record Credentials : Type := mkCredentials {
  auth_token : option string;
  api_key : option string;
  auth_header : string
}.

(** [if x:] on an attribute that is [None] or a string. *)
Definition truthy (x : option string) : bool :=
  match x with
  | Some (String _ _) => true
  | Some EmptyString => false
  | None => false
  end.

(** [headers[key] = value] on a dictionary kept in insertion order. *)
Fixpoint dict_set (key value : string) (h : headers) : headers :=
  match h with
  | [] => [(key, value)]
  | (k, v) :: h' =>
      if String.eqb k key then (k, value) :: h' else (k, v) :: dict_set key value h'
  end.

Definition _get_default_headers (c : Credentials) : headers :=
  let headers := [("User-Agent", "APIClient/1.0");
                  ("Accept", "application/json");
                  ("Content-Type", "application/json")]%string in
  if truthy (auth_token c) then
    match auth_token c with
    | Some token => dict_set (auth_header c) ("Bearer " ++ token)%string headers
    | None => headers
    end
  else if truthy (api_key c) then
    match api_key c with
    | Some key => dict_set "X-API-Key" key headers
    | None => headers
    end
  else headers.

(** The values of a configuration dictionary. *)
Unset Elimination Schemes.
Inductive cvalue : Type :=
| CNone
| CBool (b : bool)
| CInt (n : Z)
| CFloat (q : Q)
| CStr (s : string)
| CList (l : list cvalue)
| CDict (d : list (string * cvalue)).
Set Elimination Schemes.

(** [path.split('.')]. *)
Fixpoint split_dot (s : string) : list string :=
  match s with
  | EmptyString => [EmptyString]
  | String c s' =>
      if Ascii.eqb c "."%char then EmptyString :: split_dot s'
      else match split_dot s' with
           | h :: t => String c h :: t
           | [] => [String c EmptyString]
           end
  end.

Fixpoint dict_lookup (key : string) (d : list (string * cvalue)) : option cvalue :=
  match d with
  | [] => None
  | (k, v) :: d' => if String.eqb k key then Some v else dict_lookup key d'
  end.

(** [value[key]] with a string key: [None] stands for the [KeyError] of
    a dictionary without the key and for the [TypeError] of every other
    value. *)
Definition getitem (value : cvalue) (key : string) : option cvalue :=
  match value with
  | CDict d => dict_lookup key d
  | _ => None
  end.

Fixpoint walk (value : cvalue) (keys : list string) : option cvalue :=
  match keys with
  | [] => Some value
  | key :: keys' =>
      match getitem value key with
      | Some v => walk v keys'
      | None => None
      end
  end.

(** [get_config_value] of [config_loader.py]. *)
Definition get_config_value (config : cvalue) (path : string) (default : cvalue) : cvalue :=
  match walk config (split_dot path) with
  | Some v => v
  | None => default
  end.

(** ** More vocabulary *)

(** The states a client goes through: it is created, time passes, and
    its methods are called, with whatever the transport does. *)
Inductive reachable (cfg : Config) : State -> Prop :=
| reach_init now : reachable cfg (init now)
| reach_time s t : reachable cfg s -> reachable cfg (set_clock t s)
| reach_request tr s : reachable cfg s -> reachable cfg (fst (_make_request cfg tr s))
| reach_health tr s : reachable cfg s -> reachable cfg (fst (health_check cfg tr s))
| reach_reset s : reachable cfg s -> reachable cfg (fst (reset_stats s))
| reach_initialize s : reachable cfg s -> reachable cfg (fst (initialize s))
| reach_close s : reachable cfg s -> reachable cfg (fst (close s)).

(** Outcomes reported to the breaker one after the other: [true] for a
    success, [false] for a failure. *)
Fixpoint report_all (cfg : Config) (outcomes : list bool) (s : State) : State :=
  match outcomes with
  | [] => s
  | success :: rest => report_all cfg rest (fst (_update_circuit_breaker cfg success s))
  end.

Definition failures_in (outcomes : list bool) : Z :=
  Z.of_nat (List.length (filter negb outcomes)).

(** The exception raised by a refusing breaker. *)
Definition circuit_open : exn := mkExn APIError CircuitOpenMsg None None.

(** A string without a dot. *)
Fixpoint no_dot (s : string) : bool :=
  match s with
  | EmptyString => true
  | String c s' => negb (Ascii.eqb c "."%char) && no_dot s'
  end.

(** ** Sample clients, credentials and configurations *)

(** No retry at all, not even a first attempt. *)
Definition no_attempts : Config :=
  mkConfig "https://api.example.com" (-1) 1 2 60 true 5 300.

(** The breaker switched off. *)
Definition breaker_off : Config :=
  mkConfig "https://api.example.com" 3 1 2 60 false 5 300.

(** The client of threshold 2 with its breaker open, exactly at the end
    of the cooldown. *)
Definition at_cooldown : State := set_clock 302 tripped.

(** A client at time 120 whose window holds the times 10 and 100. *)
Definition stale_window : State :=
  set_rate_limit_requests [10%Q; 100%Q] (init 120).

(** A 503, then a timeout, then a 200. *)
Definition flaky : transport :=
  fun k => match k with
           | 0%nat => (Responded (mkResponse 503 [] "unavailable"), 0%Q)
           | 1%nat => (TimedOut, 0%Q)
           | _ => (Responded (mkResponse 200 [] "ok"), 0%Q)
           end.



Definition both_credentials : Credentials :=
  mkCredentials (Some "s3cret"%string) (Some "k3y"%string) "Authorization".

Definition key_only : Credentials :=
  mkCredentials (Some ""%string) (Some "k3y"%string) "Authorization".

Definition sample_config : cvalue :=
  CDict [("api", CDict [("base_url", CStr "https://api.example.com");
                        ("timeout", CInt 10);
                        ("auth_token", CNone)])%string;
         ("debug", CBool true)%string].
(** ** Basic facts *)

Lemma Qltb_true (a b : Q) : Qltb a b = true <-> (a < b)%Q.
Proof.
  unfold Qltb. rewrite negb_true_iff. split.
  - intros H. apply Qnot_le_lt. intros Hle.
    apply Qle_bool_iff in Hle. congruence.
  - intros H. destruct (Qle_bool b a) eqn:E; [| reflexivity].
    apply Qle_bool_iff in E. exfalso. exact (Qlt_not_le _ _ H E).
Qed.

Lemma Qltb_false (a b : Q) : Qltb a b = false <-> (b <= a)%Q.
Proof.
  unfold Qltb. rewrite negb_false_iff. apply Qle_bool_iff.
Qed.

Lemma same_breaker_refl s : same_breaker s s.
Proof. repeat split. Qed.

Lemma same_breaker_trans s1 s2 s3 :
  same_breaker s1 s2 -> same_breaker s2 s3 -> same_breaker s1 s3.
Proof.
  unfold same_breaker. intros (A & B & C) (A' & B' & C').
  repeat split; congruence.
Qed.

Section Breaker.

Variable cfg : Config.
Hypothesis enabled : circuit_breaker_enabled cfg = true.

Lemma report_failure_count s :
  circuit_breaker_failure_count (fst (_update_circuit_breaker cfg false s))
  = circuit_breaker_failure_count s + 1.
Proof.
  unfold _update_circuit_breaker. rewrite enabled. cbn.
  destruct (_ && _); reflexivity.
Qed.

Lemma report_failure_time s :
  circuit_breaker_last_failure_time (fst (_update_circuit_breaker cfg false s))
  = Some (clock s).
Proof.
  unfold _update_circuit_breaker. rewrite enabled. cbn.
  destruct (_ && _); reflexivity.
Qed.


Lemma report_failure_other s :
  let s' := fst (_update_circuit_breaker cfg false s) in
  clock s' = clock s /\ transport_calls s' = transport_calls s /\
  slept s' = slept s /\ error_count s' = error_count s /\
  request_count s' = request_count s.
Proof.
  unfold _update_circuit_breaker. rewrite enabled. cbn.
  destruct (_ && _); cbn; repeat split.
Qed.



(** An open breaker whose cooldown has not run out refuses the call. *)
Lemma check_open_blocks s t :
  circuit_breaker_state s = st_open ->
  circuit_breaker_last_failure_time s = Some t ->
  (clock s - t <= circuit_breaker_timeout cfg)%Q ->
  _check_circuit_breaker cfg s = (s, Raise (mkExn APIError CircuitOpenMsg None None)).
Proof.
  intros Hs Ht Hc. unfold _check_circuit_breaker. rewrite enabled. cbn.
  rewrite Hs, Ht. apply Qltb_false in Hc. rewrite Hc. reflexivity.
Qed.

Lemma check_open_admits s t :
  circuit_breaker_state s = st_open ->
  circuit_breaker_last_failure_time s = Some t ->
  (circuit_breaker_timeout cfg < clock s - t)%Q ->
  _check_circuit_breaker cfg s = (set_circuit_breaker_state st_half_open s, Ok tt).
Proof.
  intros Hs Ht Hc. unfold _check_circuit_breaker. rewrite enabled. cbn.
  rewrite Hs, Ht. apply Qltb_true in Hc. rewrite Hc. reflexivity.
Qed.

End Breaker.

(** ** The breaker invariant *)

Section Preservation.

Variable P : State -> Prop.

Lemma preserves_ret {A} (a : A) : preserves P (ret a).
Proof. intros s H. exact H. Qed.

Lemma preserves_raise {A} (e : exn) : preserves P (@raise A e).
Proof. intros s H. exact H. Qed.

Lemma preserves_bind {A B} (c : M A) (k : A -> M B) :
  preserves P c -> (forall a, preserves P (k a)) -> preserves P (bind c k).
Proof.
  intros Hc Hk s H. unfold bind. specialize (Hc s H).
  destruct (c s) as [s' [a | e]]; cbn in *.
  - apply Hk, Hc.
  - exact Hc.
Qed.

Lemma preserves_try {A} (c : M A) (h : exn -> M A) :
  preserves P c -> (forall e, preserves P (h e)) -> preserves P (try_except c h).
Proof.
  intros Hc Hh s H. unfold try_except. specialize (Hc s H).
  destruct (c s) as [s' [a | e]]; cbn in *.
  - exact Hc.
  - apply Hh, Hc.
Qed.

Lemma preserves_modify (f : State -> State) :
  (forall s, P s -> P (f s)) -> preserves P (modify f).
Proof. intros Hf s H. apply Hf, H. Qed.

Lemma preserves_read (c : M Q) :
  (forall s, fst (c s) = s) -> preserves P c.
Proof. intros Hc s H. rewrite Hc. exact H. Qed.

Lemma preserves_get : preserves P get.
Proof. intros s H. exact H. Qed.

End Preservation.

Section Invariant.

Variable cfg : Config.
Variable tr : transport.

Let inv := breaker_inv cfg.

Lemma inv_init now : breaker_inv cfg (init now).
Proof. split; cbn; [lia | congruence]. Qed.

(** The invariant only reads the three attributes of the breaker. *)
Lemma inv_same_breaker s s' : same_breaker s s' -> inv s -> inv s'.
Proof.
  unfold inv, breaker_inv. intros (A & B & C) H. rewrite A, B, C. exact H.
Qed.

Lemma inv_check : preserves inv (_check_circuit_breaker cfg).
Proof.
  intros s H. unfold _check_circuit_breaker.
  destruct (circuit_breaker_enabled cfg); cbn; [| exact H].
  case_eq (circuit_breaker_state s); intros E; cbn; try exact H.
  destruct H as (H0 & H).
  destruct H as [Hth Ht]; [rewrite E; discriminate |].
  destruct (circuit_breaker_last_failure_time s) as [t |] eqn:Et; [| congruence].
  destruct (Qltb _ _); cbn; (split; cbn; [exact H0 | rewrite ?E, ?Et; auto]).
Qed.

Lemma inv_update success : preserves inv (_update_circuit_breaker cfg success).
Proof.
  intros s H. unfold _update_circuit_breaker.
  destruct (circuit_breaker_enabled cfg); cbn; [| exact H].
  destruct success; cbn.
  - case_eq (circuit_breaker_state s); intros E; cbn; try exact H.
    split; cbn; [lia | congruence].
  - destruct H as (H0 & H).
    destruct (circuit_breaker_threshold cfg <=? circuit_breaker_failure_count s + 1) eqn:Eth;
      cbn.
    + apply Z.leb_le in Eth.
      case_eq (circuit_breaker_state s); intros E; cbn;
        (split; cbn; [lia | intros _; split; [lia | discriminate]]).
    + split; cbn; [lia |]. intros Hs. destruct (H Hs) as [Hth _].
      split; [lia | discriminate].
Qed.

Lemma inv_reset_stats : preserves inv reset_stats.
Proof. intros s _. split; cbn; [lia | congruence]. Qed.

Lemma inv_update_rate_limit_info h : preserves inv (_update_rate_limit_info h).
Proof.
  intros s H. unfold _update_rate_limit_info.
  repeat match goal with
         | |- context [match ?x with _ => _ end] => destruct x
         end; cbn; exact H.
Qed.

Lemma inv_sleep d : preserves inv (sleep d).
Proof. intros s H. exact H. Qed.

Lemma inv_session_request : preserves inv (session_request tr).
Proof.
  intros s H. unfold session_request.
  destruct (tr (transport_calls s)) as [[r | | name text] dt]; cbn; exact H.
Qed.

Lemma inv_check_rate_limit : preserves inv (_check_rate_limit).
Proof.
  intros s H. unfold _check_rate_limit. cbn.
  destruct (rate_limited _ _); [| exact H].
  destruct (rate_limit_reset _) eqn:E; cbn; rewrite ?E; exact H.
Qed.

Lemma inv_initialize : preserves inv initialize.
Proof. intros s H. unfold initialize. cbn. destruct (session s); exact H. Qed.

Ltac keep :=
  repeat first
    [ apply preserves_bind; [| intros ? ]
    | apply preserves_ret
    | apply preserves_raise
    | apply inv_update
    | apply inv_sleep
    | apply inv_update_rate_limit_info
    | apply inv_session_request
    | apply preserves_read; reflexivity
    | apply preserves_modify; intros ? Hkeep; exact Hkeep
    | match goal with
      | |- preserves _ (if ?b then _ else _) => destruct b
      end ].

Lemma inv_attempt_body attempt : preserves inv (attempt_body cfg tr attempt).
Proof. unfold attempt_body, handle_status. keep. Qed.

Lemma inv_attempt_iter attempt : preserves inv (attempt_iter cfg tr attempt).
Proof.
  unfold attempt_iter. apply preserves_try.
  - apply inv_attempt_body.
  - intros e. destruct (exn_class e); unfold on_timeout, on_exception; keep.
Qed.

Lemma inv_for_attempts n : forall attempt, preserves inv (for_attempts cfg tr n attempt).
Proof.
  induction n as [| n IH]; intros attempt; cbn [for_attempts].
  - apply preserves_ret.
  - apply preserves_bind; [apply inv_attempt_iter |].
    intros [| r]; [apply IH | apply preserves_ret].
Qed.

(** Every state a client reaches through [_make_request] and
    [reset_stats] satisfies the invariant. *)
Lemma inv_make_request : preserves (breaker_inv cfg) (_make_request cfg tr).
Proof.
  unfold _make_request.
  apply preserves_bind; [apply inv_initialize | intros _].
  apply preserves_bind; [apply inv_check | intros _].
  apply preserves_bind; [apply inv_check_rate_limit | intros _].
  apply inv_for_attempts.
Qed.

End Invariant.

(** ** The circuit breaker *)

Section BreakerClaims.

Variable cfg : Config.
Variable tr : transport.

Lemma make_request_blocked s t :
  circuit_breaker_enabled cfg = true ->
  circuit_breaker_state s = st_open ->
  circuit_breaker_last_failure_time s = Some t ->
  (clock s - t <= circuit_breaker_timeout cfg)%Q ->
  _make_request cfg tr s
  = (fst (initialize s), Raise (mkExn APIError CircuitOpenMsg None None)).
Proof.
  intros He Hs Ht Hc. unfold _make_request, bind at 1.
  assert (Hi : initialize s = (fst (initialize s), Ok tt))
    by (unfold initialize; cbn; destruct (session s); reflexivity).
  rewrite Hi. unfold bind at 1.
  rewrite (check_open_blocks cfg He _ t).
  - reflexivity.
  - unfold initialize. cbn. destruct (session s); cbn; exact Hs.
  - unfold initialize. cbn. destruct (session s); cbn; exact Ht.
  - unfold initialize. cbn. destruct (session s); cbn; exact Hc.
Qed.


(** C7.  Once more than the cooldown has passed since the last failure
    of an open breaker, the admission check lets the call through and
    leaves the breaker half-open.  Reporting a success then closes the
    breaker with a count of 0; reporting a failure opens it again with
    the count one higher and the time of the last failure set to the
    time of the report. *)
Theorem half_open_probe (s : State) (t : Q) :
  circuit_breaker_enabled cfg = true ->
  circuit_breaker_state s = st_open ->
  circuit_breaker_last_failure_time s = Some t ->
  circuit_breaker_threshold cfg <= circuit_breaker_failure_count s ->
  (circuit_breaker_timeout cfg < clock s - t)%Q ->
  exists s1,
    _check_circuit_breaker cfg s = (s1, Ok tt) /\
    circuit_breaker_state s1 = st_half_open /\
    circuit_breaker_failure_count s1 = circuit_breaker_failure_count s /\
    forall s2,
      circuit_breaker_state s2 = st_half_open ->
      circuit_breaker_failure_count s2 = circuit_breaker_failure_count s1 ->
      (exists s3, _update_circuit_breaker cfg true s2 = (s3, Ok tt) /\
                  circuit_breaker_state s3 = st_closed /\
                  circuit_breaker_failure_count s3 = 0) /\
      (exists s3, _update_circuit_breaker cfg false s2 = (s3, Ok tt) /\
                  circuit_breaker_state s3 = st_open /\
                  circuit_breaker_failure_count s3 = circuit_breaker_failure_count s + 1 /\
                  circuit_breaker_last_failure_time s3 = Some (clock s2)).
Proof.
  intros He Hs Ht Hth Hc.
  exists (set_circuit_breaker_state st_half_open s).
  split; [apply (check_open_admits cfg He s t Hs Ht Hc) |].
  split; [reflexivity |]. split; [reflexivity |].
  cbn. intros s2 Hs2 Hc2. split.
  - eexists. split.
    + unfold _update_circuit_breaker. rewrite He. cbn. rewrite Hs2. cbn. reflexivity.
    + split; reflexivity.
  - eexists. split.
    + unfold _update_circuit_breaker. rewrite He. cbn.
      replace (circuit_breaker_threshold cfg <=? circuit_breaker_failure_count s2 + 1)
        with true by (symmetry; apply Z.leb_le; lia).
      rewrite Hs2. cbn. reflexivity.
    + cbn. rewrite Hc2. repeat split.
Qed.

End BreakerClaims.


Lemma half_open_probe_witness :
  circuit_breaker_enabled threshold2 = true /\
  circuit_breaker_state cooled = st_open /\
  circuit_breaker_last_failure_time cooled = Some 2%Q /\
  circuit_breaker_threshold threshold2 <= circuit_breaker_failure_count cooled /\
  (circuit_breaker_timeout threshold2 < clock cooled - 2)%Q /\
  exists s1,
    _check_circuit_breaker threshold2 cooled = (s1, Ok tt) /\
    circuit_breaker_state s1 = st_half_open.
Proof.
  split; [reflexivity |]. split; [reflexivity |]. split; [reflexivity |].
  split; [vm_compute; discriminate |]. split; [reflexivity |].
  destruct (half_open_probe threshold2 cooled 2%Q) as (s1 & H1 & H2 & _).
  - reflexivity.
  - reflexivity.
  - reflexivity.
  - vm_compute; discriminate.
  - reflexivity.
  - exists s1. split; assumption.
Defined.

(** ** One attempt *)

Section Attempt.

Variable cfg : Config.
Variable tr : transport.

Lemma update_rate_limit_info_ok h s : snd (_update_rate_limit_info h s) = Ok tt.
Proof.
  unfold _update_rate_limit_info.
  repeat match goal with
         | |- context [match ?x with _ => _ end] => destruct x
         end; reflexivity.
Qed.

(** The rate-limit headers change nothing but the two rate-limit
    attributes. *)
Lemma update_rate_limit_info_frame h s :
  let s' := fst (_update_rate_limit_info h s) in
  same_breaker s s' /\
  clock s' = clock s /\ transport_calls s' = transport_calls s /\
  slept s' = slept s /\ error_count s' = error_count s /\
  request_count s' = request_count s /\
  rate_limit_requests s' = rate_limit_requests s.
Proof.
  unfold _update_rate_limit_info, same_breaker.
  repeat match goal with
         | |- context [match ?x with _ => _ end] => destruct x
         end; cbn; repeat split.
Qed.

Lemma received_frame dt r s :
  same_breaker s (received dt r s) /\
  clock (received dt r s) = (clock s + dt)%Q /\
  transport_calls (received dt r s) = S (transport_calls s) /\
  slept (received dt r s) = slept s /\
  error_count (received dt r s) = error_count s /\
  request_count (received dt r s) = request_count s + 1 /\
  rate_limit_requests (received dt r s) = rate_limit_requests s ++ [clock s].
Proof.
  unfold received.
  match goal with
  | |- context [_update_rate_limit_info ?h ?x] =>
      destruct (update_rate_limit_info_frame h x) as ((A & B & C) & D & E & F & G & H & I)
  end.
  unfold same_breaker. rewrite A, B, C, D, E, F, G, H, I. cbn. repeat split.
Qed.

Lemma attempt_body_responded attempt s r dt :
  tr (transport_calls s) = (Responded r, dt) ->
  attempt_body cfg tr attempt s = handle_status cfg attempt r (received dt r s).
Proof.
  intros H. unfold attempt_body, received, bind, time_time, modify, utcnow, session_request.
  cbn [transport_calls set_rate_limit_requests clock]. rewrite H. cbn [fst snd].
  match goal with
  | |- match _update_rate_limit_info ?h ?x1 with _ => _ end
       = handle_status _ _ _ (fst (_update_rate_limit_info _ ?x2)) =>
      change x1 with x2;
      pose proof (update_rate_limit_info_ok h x2) as Hok;
      destruct (_update_rate_limit_info h x2) as [s1 [[] | e]]
  end; cbn in *; [reflexivity | discriminate].
Qed.

Lemma attempt_body_timed_out attempt s dt :
  tr (transport_calls s) = (TimedOut, dt) ->
  attempt_body cfg tr attempt s
  = (interrupted dt s, Raise (mkExn AsyncioTimeoutError (TransportMsg "") None None)).
Proof.
  intros H. unfold attempt_body, bind, time_time, modify, session_request.
  cbn [transport_calls set_rate_limit_requests clock]. rewrite H. reflexivity.
Qed.

Lemma attempt_body_failed attempt s name text dt :
  tr (transport_calls s) = (Failed name text, dt) ->
  attempt_body cfg tr attempt s
  = (interrupted dt s, Raise (mkExn (OtherException name) (TransportMsg text) None None)).
Proof.
  intros H. unfold attempt_body, bind, time_time, modify, session_request.
  cbn [transport_calls set_rate_limit_requests clock]. rewrite H. reflexivity.
Qed.

Lemma update_run success s :
  _update_circuit_breaker cfg success s
  = (fst (_update_circuit_breaker cfg success s), Ok tt).
Proof.
  unfold _update_circuit_breaker.
  destruct (circuit_breaker_enabled cfg); [| reflexivity].
  destruct success; cbn.
  - destruct (circuit_breaker_state s); reflexivity.
  - destruct (_ && _); reflexivity.
Qed.

Lemma bind_update {B} success (k : unit -> M B) s :
  bind (_update_circuit_breaker cfg success) k s
  = k tt (fst (_update_circuit_breaker cfg success s)).
Proof. unfold bind. rewrite update_run. reflexivity. Qed.

(** Reporting to the breaker touches nothing but the breaker. *)
Lemma update_frame success s :
  let s' := fst (_update_circuit_breaker cfg success s) in
  clock s' = clock s /\ transport_calls s' = transport_calls s /\
  slept s' = slept s /\ error_count s' = error_count s /\
  request_count s' = request_count s.
Proof.
  unfold _update_circuit_breaker.
  destruct (circuit_breaker_enabled cfg); [| cbn; repeat split].
  destruct success; cbn.
  - destruct (circuit_breaker_state s); cbn; repeat split.
  - destruct (_ && _); cbn; repeat split.
Qed.

(** A success is reported the same way whatever the rest of the state. *)
Lemma update_success_same_breaker s1 s2 :
  same_breaker s1 s2 ->
  same_breaker (fst (_update_circuit_breaker cfg true s1))
               (fst (_update_circuit_breaker cfg true s2)).
Proof.
  intros (A & B & C). unfold _update_circuit_breaker.
  destruct (circuit_breaker_enabled cfg); cbn; [| repeat split; assumption].
  rewrite A. destruct (circuit_breaker_state s1) eqn:E; cbn; repeat split; cbn; congruence.
Qed.

Lemma on_timeout_final attempt s :
  max_retries cfg <= attempt ->
  on_timeout cfg attempt s
  = (reported cfg (counted s),
     Raise (mkExn APITimeoutError (TimeoutMsg (max_retries cfg)) None None)).
Proof.
  intros Hge. unfold on_timeout.
  replace (attempt <? max_retries cfg) with false by (symmetry; apply Z.ltb_ge; lia).
  unfold bind at 1. cbn [modify]. rewrite bind_update. reflexivity.
Qed.

Lemma on_exception_final attempt e s :
  max_retries cfg <= attempt ->
  on_exception cfg attempt e s
  = (reported cfg (counted s), Raise (request_failed cfg (exn_message e))).
Proof.
  intros Hge. unfold on_exception.
  replace (attempt <? max_retries cfg) with false by (symmetry; apply Z.ltb_ge; lia).
  unfold bind at 1. cbn [modify]. rewrite bind_update. reflexivity.
Qed.

(** *** What an attempt does, outcome by outcome *)

Ltac tests :=
  repeat match goal with
         | |- context [?a =? ?b] => destruct (Z.eqb_spec a b); try lia
         | |- context [?a <=? ?b] => destruct (Z.leb_spec a b); try lia
         | |- context [?a <? ?b] => destruct (Z.ltb_spec a b); try lia
         end;
  cbn [andb orb negb].

Lemma attempt_success attempt s r dt :
  tr (transport_calls s) = (Responded r, dt) ->
  status r < 400 ->
  attempt_iter cfg tr attempt s
  = (fst (_update_circuit_breaker cfg true (received dt r s)), Ok (Return r)).
Proof.
  intros Htr Hst. unfold attempt_iter, try_except.
  rewrite (attempt_body_responded attempt s r dt Htr).
  unfold handle_status. tests. rewrite bind_update. reflexivity.
Qed.

Lemma attempt_429_last attempt s r dt :
  tr (transport_calls s) = (Responded r, dt) ->
  status r = 429 ->
  max_retries cfg <= attempt ->
  attempt_iter cfg tr attempt s
  = (reported cfg (counted (received dt r s)),
     Raise (request_failed cfg (RateLimitedMsg (status r)))).
Proof.
  intros Htr Hst Hge. unfold attempt_iter, try_except.
  rewrite (attempt_body_responded attempt s r dt Htr).
  unfold handle_status. tests. cbn [raise exn_class].
  rewrite on_exception_final by lia. reflexivity.
Qed.

Lemma attempt_401 attempt s r dt :
  tr (transport_calls s) = (Responded r, dt) ->
  status r = 401 ->
  attempt_iter cfg tr attempt s
  = if attempt <? max_retries cfg
    then (waited (backoff_delay cfg attempt) (received dt r s), Ok Continue)
    else (reported cfg (counted (received dt r s)),
          Raise (request_failed cfg (AuthFailedMsg (status r)))).
Proof.
  intros Htr Hst. unfold attempt_iter, try_except.
  rewrite (attempt_body_responded attempt s r dt Htr).
  unfold handle_status.
  destruct (Z.eqb_spec (status r) 429); [lia |].
  destruct (Z.eqb_spec (status r) 401); [| lia].
  cbn [raise exn_class].
  destruct (Z.ltb_spec attempt (max_retries cfg)) as [Hlt | Hge].
  - unfold on_exception. apply Z.ltb_lt in Hlt. rewrite Hlt. reflexivity.
  - rewrite on_exception_final by lia. reflexivity.
Qed.

Lemma attempt_4xx attempt s r dt :
  tr (transport_calls s) = (Responded r, dt) ->
  400 <= status r < 500 -> status r <> 401 -> status r <> 429 ->
  attempt_iter cfg tr attempt s
  = if attempt <? max_retries cfg
    then (waited (backoff_delay cfg attempt) (reported cfg (received dt r s)), Ok Continue)
    else (reported cfg (counted (reported cfg (received dt r s))),
          Raise (request_failed cfg (ClientErrorMsg (status r) (resp_text r)))).
Proof.
  intros Htr Hst H401 H429. unfold attempt_iter, try_except.
  rewrite (attempt_body_responded attempt s r dt Htr).
  unfold handle_status.
  destruct (Z.eqb_spec (status r) 429); [lia |].
  destruct (Z.eqb_spec (status r) 401); [lia |].
  destruct (Z.leb_spec 400 (status r)); [| lia].
  destruct (Z.ltb_spec (status r) 500); [| lia].
  cbn [andb]. rewrite bind_update. cbn [raise exn_class].
  destruct (Z.ltb_spec attempt (max_retries cfg)) as [Hlt | Hge].
  - unfold on_exception. apply Z.ltb_lt in Hlt. rewrite Hlt. reflexivity.
  - rewrite on_exception_final by lia. reflexivity.
Qed.

Lemma attempt_5xx attempt s r dt :
  tr (transport_calls s) = (Responded r, dt) ->
  500 <= status r ->
  attempt_iter cfg tr attempt s
  = if attempt <? max_retries cfg
    then (waited (backoff_delay cfg attempt) (received dt r s), Ok Continue)
    else (reported cfg (counted (reported cfg (received dt r s))),
          Raise (request_failed cfg (ServerErrorMsg (status r) (resp_text r)))).
Proof.
  intros Htr Hst. unfold attempt_iter, try_except.
  rewrite (attempt_body_responded attempt s r dt Htr).
  unfold handle_status.
  destruct (Z.eqb_spec (status r) 429); [lia |].
  destruct (Z.eqb_spec (status r) 401); [lia |].
  destruct (Z.ltb_spec (status r) 500); [lia |].
  rewrite andb_false_r.
  destruct (Z.leb_spec 500 (status r)); [| lia].
  destruct (Z.ltb_spec attempt (max_retries cfg)) as [Hlt | Hge].
  - reflexivity.
  - rewrite bind_update. cbn [raise exn_class].
    rewrite on_exception_final by lia. reflexivity.
Qed.

Lemma attempt_429 attempt s r dt :
  tr (transport_calls s) = (Responded r, dt) ->
  status r = 429 ->
  attempt_iter cfg tr attempt s
  = if attempt <? max_retries cfg
    then (waited (inject_Z match py_int (headers_get "Retry-After" "60" (resp_headers r)) with
                           | Some n => n
                           | None => 60
                           end) (received dt r s), Ok Continue)
    else (reported cfg (counted (received dt r s)),
          Raise (request_failed cfg (RateLimitedMsg (status r)))).
Proof.
  intros Htr Hst.
  destruct (Z.ltb_spec attempt (max_retries cfg)) as [Hlt | Hge].
  - unfold attempt_iter, try_except.
    rewrite (attempt_body_responded attempt s r dt Htr).
    unfold handle_status. rewrite Hst. cbn [Z.eqb Pos.eqb].
    apply Z.ltb_lt in Hlt. rewrite Hlt. reflexivity.
  - apply attempt_429_last; assumption.
Qed.

Lemma attempt_timed_out attempt s dt :
  tr (transport_calls s) = (TimedOut, dt) ->
  attempt_iter cfg tr attempt s
  = if attempt <? max_retries cfg
    then (waited (backoff_delay cfg attempt) (interrupted dt s), Ok Continue)
    else (reported cfg (counted (interrupted dt s)),
          Raise (mkExn APITimeoutError (TimeoutMsg (max_retries cfg)) None None)).
Proof.
  intros Htr. unfold attempt_iter, try_except.
  rewrite (attempt_body_timed_out attempt s dt Htr). cbn [exn_class].
  destruct (Z.ltb_spec attempt (max_retries cfg)) as [Hlt | Hge].
  - unfold on_timeout. apply Z.ltb_lt in Hlt. rewrite Hlt. reflexivity.
  - rewrite on_timeout_final by lia. reflexivity.
Qed.

Lemma attempt_failed attempt s name text dt :
  tr (transport_calls s) = (Failed name text, dt) ->
  attempt_iter cfg tr attempt s
  = if attempt <? max_retries cfg
    then (waited (backoff_delay cfg attempt) (interrupted dt s), Ok Continue)
    else (reported cfg (counted (interrupted dt s)),
          Raise (request_failed cfg (TransportMsg text))).
Proof.
  intros Htr. unfold attempt_iter, try_except.
  rewrite (attempt_body_failed attempt s name text dt Htr). cbn [exn_class].
  destruct (Z.ltb_spec attempt (max_retries cfg)) as [Hlt | Hge].
  - unfold on_exception. apply Z.ltb_lt in Hlt. rewrite Hlt. reflexivity.
  - rewrite on_exception_final by lia. reflexivity.
Qed.

End Attempt.

(** ** How the pieces of an attempt move the state *)

Lemma calls_reported cfg s : transport_calls (reported cfg s) = transport_calls s.
Proof. apply (update_frame cfg false s). Qed.

Lemma calls_received dt r s : transport_calls (received dt r s) = S (transport_calls s).
Proof. apply received_frame. Qed.

Lemma errors_reported cfg s : error_count (reported cfg s) = error_count s.
Proof. apply (update_frame cfg false s). Qed.

Lemma errors_received dt r s : error_count (received dt r s) = error_count s.
Proof. apply received_frame. Qed.

Lemma slept_reported cfg s : slept (reported cfg s) = slept s.
Proof. apply (update_frame cfg false s). Qed.

Lemma slept_received dt r s : slept (received dt r s) = slept s.
Proof. apply received_frame. Qed.

Lemma clock_reported cfg s : clock (reported cfg s) = clock s.
Proof. apply (update_frame cfg false s). Qed.

Lemma clock_received dt r s : clock (received dt r s) = (clock s + dt)%Q.
Proof. apply received_frame. Qed.

Lemma breaker_received dt r s : same_breaker s (received dt r s).
Proof. apply received_frame. Qed.

Lemma breaker_interrupted dt s : same_breaker s (interrupted dt s).
Proof. repeat split. Qed.

Lemma breaker_waited d s : same_breaker s (waited d s).
Proof. repeat split. Qed.

Lemma breaker_counted s : same_breaker s (counted s).
Proof. repeat split. Qed.

Lemma failures_of_reported cfg s :
  circuit_breaker_enabled cfg = true ->
  circuit_breaker_failure_count (reported cfg s) = circuit_breaker_failure_count s + 1.
Proof. intros He. apply report_failure_count, He. Qed.

Lemma last_failure_of_reported cfg s :
  circuit_breaker_enabled cfg = true ->
  circuit_breaker_last_failure_time (reported cfg s) = Some (clock s).
Proof. intros He. apply report_failure_time, He. Qed.

Create Rewrite HintDb frame.
#[global] Hint Rewrite calls_reported calls_received errors_reported errors_received
  slept_reported slept_received clock_reported clock_received : frame.

Ltac frame :=
  repeat (autorewrite with frame;
          cbn [transport_calls error_count slept clock counted waited interrupted
               set_error_count set_slept set_clock set_transport_calls
               set_rate_limit_requests]).

(** ** The retry delays *)


Section Delays.

Variable cfg : Config.
Variable tr : transport.

(** C9.  A 429 answer whose Retry-After header is absent, under any
    spelling of its name, or holds an ASCII value that [int] refuses,
    makes the client sleep exactly 60 before the next attempt, whatever
    the index of the attempt and whatever the retry options. *)
Theorem rate_limited_default_wait (attempt : Z) (s : State) (r : response) (dt : Q) :
  tr (transport_calls s) = (Responded r, dt) ->
  status r = 429 ->
  (lookup_ci "Retry-After" (resp_headers r) = None \/
   exists v, lookup_ci "Retry-After" (resp_headers r) = Some v /\
             is_ascii v = true /\ py_int v = None) ->
  attempt < max_retries cfg ->
  exists s',
    attempt_iter cfg tr attempt s = (s', Ok Continue) /\
    slept s' = slept s ++ [60%Q] /\
    clock s' = (clock s + dt + 60)%Q.
Proof.
  intros Htr Hst Hra Hlt. eexists. split.
  - rewrite (attempt_429 cfg tr attempt s r dt Htr Hst).
    apply Z.ltb_lt in Hlt. rewrite Hlt. reflexivity.
  - frame. unfold headers_get.
    destruct Hra as [-> | (v & -> & _ & ->)]; split; reflexivity.
Qed.


End Delays.

(** A 429 answer whose header, spelt retry-after, holds "soon". *)
Lemma rate_limited_default_wait_witness :
  retry_after_soon (transport_calls (init 0))
  = (Responded (mkResponse 429 [("retry-after", "soon")%string] "slow down"), 0%Q) /\
  status (mkResponse 429 [("retry-after", "soon")%string] "slow down") = 429 /\
  (exists v, lookup_ci "Retry-After" [("retry-after", "soon")%string] = Some v /\
             is_ascii v = true /\ py_int v = None) /\
  0 < max_retries default_config /\
  exists s',
    attempt_iter default_config retry_after_soon 0 (init 0) = (s', Ok Continue) /\
    slept s' = slept (init 0) ++ [60%Q] /\
    clock s' = (clock (init 0) + 0 + 60)%Q.
Proof.
  assert (H : exists v, lookup_ci "Retry-After" [("retry-after", "soon")%string] = Some v /\
                        is_ascii v = true /\ py_int v = None)
    by (exists "soon"%string; repeat split).
  split; [reflexivity |]. split; [reflexivity |]. split; [exact H |].
  split; [reflexivity |].
  apply (rate_limited_default_wait default_config retry_after_soon 0 (init 0)
           (mkResponse 429 [("retry-after", "soon")%string] "slow down") 0%Q).
  - reflexivity.
  - reflexivity.
  - right. exact H.
  - reflexivity.
Defined.



(** ** What the breaker is told *)

Section Reports.

Variable cfg : Config.
Variable tr : transport.
Hypothesis enabled : circuit_breaker_enabled cfg = true.

Lemma reported_counts s x :
  same_breaker s x ->
  circuit_breaker_failure_count (reported cfg x) = circuit_breaker_failure_count s + 1.
Proof. intros (_ & B & _). rewrite (failures_of_reported cfg x enabled), B. reflexivity. Qed.

(** C5, as the code has it.  A success is reported to the breaker as a
    success.  A failure on the last attempt, whatever its kind, is
    reported as a failure, and so is, on every attempt, a 4xx status
    other than 401 and 429.  A status of 500 or more, a 429, a timeout
    or an exception of the transport that is retried is not reported:
    the breaker stays as it was. *)
Theorem attempt_reports (attempt : Z) (s : State) (o : outcome) (dt : Q) :
  tr (transport_calls s) = (o, dt) ->
  (is_failure o = false ->
   same_breaker (fst (_update_circuit_breaker cfg true s))
                (fst (attempt_iter cfg tr attempt s))) /\
  (is_failure o = true -> max_retries cfg <= attempt ->
   circuit_breaker_failure_count s + 1
     <= circuit_breaker_failure_count (fst (attempt_iter cfg tr attempt s)) /\
   circuit_breaker_last_failure_time (fst (attempt_iter cfg tr attempt s))
     = Some (clock s + dt)%Q) /\
  (is_retryable o = true -> attempt < max_retries cfg ->
   same_breaker s (fst (attempt_iter cfg tr attempt s))) /\
  (forall r, o = Responded r ->
   400 <= status r < 500 -> status r <> 401 -> status r <> 429 ->
   circuit_breaker_failure_count s + 1
     <= circuit_breaker_failure_count (fst (attempt_iter cfg tr attempt s)) /\
   circuit_breaker_last_failure_time (fst (attempt_iter cfg tr attempt s))
     = Some (clock s + dt)%Q).
Proof.
  intros Htr.
  assert (H4xx : forall r, o = Responded r ->
            400 <= status r < 500 -> status r <> 401 -> status r <> 429 ->
            circuit_breaker_failure_count s + 1
              <= circuit_breaker_failure_count (fst (attempt_iter cfg tr attempt s)) /\
            circuit_breaker_last_failure_time (fst (attempt_iter cfg tr attempt s))
              = Some (clock s + dt)%Q).
  { intros r -> Hst H401 H429.
    rewrite (attempt_4xx cfg tr attempt s r dt Htr Hst H401 H429).
    destruct (attempt <? max_retries cfg); cbn [fst].
    - split.
      + change (circuit_breaker_failure_count (waited _ ?x))
          with (circuit_breaker_failure_count x).
        rewrite (reported_counts s) by apply breaker_received. lia.
      + change (circuit_breaker_last_failure_time (waited _ ?x))
          with (circuit_breaker_last_failure_time x).
        rewrite last_failure_of_reported by exact enabled. frame. reflexivity.
    - split.
      + rewrite (failures_of_reported cfg _ enabled).
        change (circuit_breaker_failure_count (counted ?x))
          with (circuit_breaker_failure_count x).
        rewrite (reported_counts s) by apply breaker_received. lia.
      + rewrite last_failure_of_reported by exact enabled. frame. reflexivity. }
  split; [| split; [| split; [| exact H4xx]]].
  - intros Hok. destruct o as [r | |]; try discriminate. cbn in Hok.
    apply Z.leb_gt in Hok.
    rewrite (attempt_success cfg tr attempt s r dt Htr Hok). cbn [fst].
    apply update_success_same_breaker, breaker_received.
  - intros Hfail Hlast.
    assert (Hge : (attempt <? max_retries cfg) = false) by (apply Z.ltb_ge; exact Hlast).
    destruct o as [r | | name text].
    + cbn in Hfail. apply Z.leb_le in Hfail.
      destruct (Z.eq_dec (status r) 429) as [H429 | H429];
        [| destruct (Z.eq_dec (status r) 401) as [H401 | H401];
           [| destruct (Z_lt_le_dec (status r) 500) as [H4 | H5]]].
      * rewrite (attempt_429 cfg tr attempt s r dt Htr H429), Hge. cbn [fst]. split.
        -- rewrite (reported_counts s); [lia |].
           eapply same_breaker_trans; [apply breaker_received | apply breaker_counted].
        -- rewrite last_failure_of_reported by exact enabled. frame. reflexivity.
      * rewrite (attempt_401 cfg tr attempt s r dt Htr H401), Hge. cbn [fst]. split.
        -- rewrite (reported_counts s); [lia |].
           eapply same_breaker_trans; [apply breaker_received | apply breaker_counted].
        -- rewrite last_failure_of_reported by exact enabled. frame. reflexivity.
      * apply (H4xx r eq_refl); [lia | exact H401 | exact H429].
      * rewrite (attempt_5xx cfg tr attempt s r dt Htr H5), Hge. cbn [fst]. split.
        -- rewrite (failures_of_reported cfg _ enabled).
           change (circuit_breaker_failure_count (counted ?x))
             with (circuit_breaker_failure_count x).
           rewrite (reported_counts s) by apply breaker_received. lia.
        -- rewrite last_failure_of_reported by exact enabled. frame. reflexivity.
    + rewrite (attempt_timed_out cfg tr attempt s dt Htr), Hge. cbn [fst]. split.
      * rewrite (reported_counts s); [lia |]. repeat split.
      * rewrite last_failure_of_reported by exact enabled. frame. reflexivity.
    + rewrite (attempt_failed cfg tr attempt s name text dt Htr), Hge. cbn [fst]. split.
      * rewrite (reported_counts s); [lia |]. repeat split.
      * rewrite last_failure_of_reported by exact enabled. frame. reflexivity.
  - intros Hre Hlt.
    assert (Hlt' : (attempt <? max_retries cfg) = true) by (apply Z.ltb_lt; exact Hlt).
    destruct o as [r | | name text].
    + cbn in Hre. apply orb_true_iff in Hre. destruct Hre as [H429 | H5].
      * apply Z.eqb_eq in H429.
        rewrite (attempt_429 cfg tr attempt s r dt Htr H429), Hlt'. cbn [fst].
        eapply same_breaker_trans; [apply breaker_received | apply breaker_waited].
      * apply Z.leb_le in H5.
        rewrite (attempt_5xx cfg tr attempt s r dt Htr H5), Hlt'. cbn [fst].
        eapply same_breaker_trans; [apply breaker_received | apply breaker_waited].
    + rewrite (attempt_timed_out cfg tr attempt s dt Htr), Hlt'. repeat split.
    + rewrite (attempt_failed cfg tr attempt s name text dt Htr), Hlt'. repeat split.
Qed.

End Reports.

Lemma attempt_reports_witness :
  circuit_breaker_enabled default_config = true /\
  always_unavailable (transport_calls (init 0))
  = (Responded (mkResponse 503 [] "unavailable"), 0%Q) /\
  circuit_breaker_failure_count (init 0) + 1
    <= circuit_breaker_failure_count
         (fst (attempt_iter default_config always_unavailable 3 (init 0))) /\
  same_breaker (init 0) (fst (attempt_iter default_config always_unavailable 0 (init 0))).
Proof.
  split; [reflexivity |]. split; [reflexivity |]. split.
  - apply (attempt_reports default_config always_unavailable eq_refl 3 (init 0)
             (Responded (mkResponse 503 [] "unavailable")) 0%Q eq_refl).
    + reflexivity.
    + discriminate.
  - apply (attempt_reports default_config always_unavailable eq_refl 0 (init 0)
             (Responded (mkResponse 503 [] "unavailable")) 0%Q eq_refl).
    + reflexivity.
    + reflexivity.
Defined.

(** C5, as the spec has it, fails: the first attempt gets a 503, which
    is a failure, and the attempt ends with the breaker untouched: the
    failure count is still 0 and no time of failure is recorded. *)
Lemma retried_503_is_not_reported :
  is_failure (fst (unavailable_then_ok 0%nat)) = true /\
  circuit_breaker_enabled default_config = true /\
  snd (attempt_iter default_config unavailable_then_ok 0 (init 0)) = Ok Continue /\
  circuit_breaker_failure_count
    (fst (attempt_iter default_config unavailable_then_ok 0 (init 0))) = 0 /\
  circuit_breaker_last_failure_time
    (fst (attempt_iter default_config unavailable_then_ok 0 (init 0))) = None.
Proof. repeat split. Qed.

(** ** The retry loop *)

Section Loop.

Variable cfg : Config.
Variable tr : transport.

Lemma make_request_admission s :
  _make_request cfg tr s
  = bind (admission cfg)
         (fun _ => for_attempts cfg tr (Z.to_nat (max_retries cfg + 1)) 0) s.
Proof.
  unfold _make_request, admission, bind.
  destruct (initialize s) as [s1 [[] | e]]; [| reflexivity].
  destruct (_check_circuit_breaker cfg s1) as [s2 [[] | e]]; reflexivity.
Qed.

(** The admission checks make no transport call, do not sleep, and
    count no error. *)
Lemma admission_frame s :
  let s' := fst (admission cfg s) in
  transport_calls s' = transport_calls s /\
  slept s' = slept s /\ error_count s' = error_count s /\ clock s' = clock s.
Proof.
  set (P := fun x : State =>
              transport_calls x = transport_calls s /\
              slept x = slept s /\ error_count x = error_count s /\ clock x = clock s).
  assert (H : preserves P (admission cfg)).
  { unfold admission.
    apply preserves_bind; [| intros _; apply preserves_bind; [| intros _]].
    - intros x Hx. unfold initialize. cbn. destruct (session x); exact Hx.
    - intros x Hx. unfold _check_circuit_breaker.
      destruct (circuit_breaker_enabled cfg); cbn; [| exact Hx].
      destruct (circuit_breaker_state x); cbn; try exact Hx.
      destruct (circuit_breaker_last_failure_time x); cbn; [| exact Hx].
      destruct (Qltb _ _); exact Hx.
    - intros x Hx. unfold _check_rate_limit. cbn.
      destruct (rate_limited _ _); [| exact Hx].
      destruct (rate_limit_reset x); exact Hx. }
  apply (H s). repeat split.
Qed.




End Loop.

(** ** Admission and retries *)

Section Admission.

Variable cfg : Config.
Variable tr : transport.


End Admission.



(** ** Exhausted retries *)

(** C8.  With max_retries = 2 and a transport that answers 503 every
    time, a call made by a fresh client makes exactly 3 transport calls
    and raises the server error "Server error: 503", which the handler
    of the last attempt wraps in the "Request failed after 2 retries"
    [APIError]; the statistics then show an error count of 1. *)
Theorem three_calls_then_server_error (cfg : Config) (tr : transport) (now : Q) :
  max_retries cfg = 2 ->
  (forall k, exists r dt, tr k = (Responded r, dt) /\ status r = 503) ->
  exists s' text stats,
    _make_request cfg tr (init now)
    = (s', Raise (mkExn APIError (RequestFailedMsg 2 (ServerErrorMsg 503 text)) None None)) /\
    transport_calls s' = 3%nat /\
    get_stats cfg s' = (s', Ok stats) /\
    stats_error_count stats = 1.
Proof.
  intros Hmax Htr.
  assert (Hadm : exists s0, admission cfg (init now) = (s0, Ok tt) /\
                            transport_calls s0 = 0%nat /\ error_count s0 = 0).
  { unfold admission, bind, initialize, _check_circuit_breaker, _check_rate_limit.
    cbn. destruct (circuit_breaker_enabled cfg); cbn; eexists; (split; [reflexivity |]);
      split; reflexivity. }
  destruct Hadm as (s0 & Hadm & Hc0 & He0).
  rewrite make_request_admission. unfold bind at 1. rewrite Hadm, Hmax.
  change (Z.to_nat (2 + 1)) with 3%nat. cbn [for_attempts]. unfold bind.
  destruct (Htr (transport_calls s0)) as (r0 & dt0 & Htr0 & Hst0).
  rewrite (attempt_5xx cfg tr 0 s0 r0 dt0 Htr0) by lia. rewrite Hmax. cbn [Z.ltb Z.compare].
  set (s1 := waited (backoff_delay cfg 0) (received dt0 r0 s0)).
  destruct (Htr (transport_calls s1)) as (r1 & dt1 & Htr1 & Hst1).
  rewrite (attempt_5xx cfg tr _ s1 r1 dt1 Htr1) by lia. rewrite Hmax.
  cbn [Z.add Z.ltb Z.compare Pos.compare Pos.compare_cont].
  set (s2 := waited (backoff_delay cfg 1) (received dt1 r1 s1)).
  destruct (Htr (transport_calls s2)) as (r2 & dt2 & Htr2 & Hst2).
  rewrite (attempt_5xx cfg tr _ s2 r2 dt2 Htr2) by lia. rewrite Hmax.
  cbn [Z.add Pos.add Z.ltb Z.compare Pos.compare Pos.compare_cont].
  set (s3 := reported cfg (counted (reported cfg (received dt2 r2 s2)))).
  assert (He3 : error_count s3 = 1).
  { unfold s3, s2, s1. frame. rewrite He0. reflexivity. }
  exists s3, (resp_text r2).
  exists (mkStats (base_url cfg) (request_count s3) (error_count s3)
            (inject_Z (error_count s3) / inject_Z (Z.max (request_count s3) 1))%Q
            (last_request_time s3) (circuit_breaker_state s3)
            (circuit_breaker_failure_count s3) (rate_limit_remaining s3)
            (rate_limit_reset s3) (session s3)).
  split; [| split; [| split]].
  - unfold request_failed. rewrite Hmax, Hst2. reflexivity.
  - unfold s3, s2, s1. frame. rewrite Hc0. reflexivity.
  - unfold get_stats, bind, get, truediv.
    destruct (Z.eqb_spec (Z.max (request_count s3) 1) 0); [lia | reflexivity].
  - exact He3.
Qed.

Lemma three_calls_then_server_error_witness :
  max_retries two_retries = 2 /\
  (forall k, exists r dt, always_unavailable k = (Responded r, dt) /\ status r = 503) /\
  exists s' text stats,
    _make_request two_retries always_unavailable (init 0)
    = (s', Raise (mkExn APIError (RequestFailedMsg 2 (ServerErrorMsg 503 text)) None None)) /\
    transport_calls s' = 3%nat /\
    get_stats two_retries s' = (s', Ok stats) /\
    stats_error_count stats = 1.
Proof.
  assert (H : forall k, exists r dt,
             always_unavailable k = (Responded r, dt) /\ status r = 503)
    by (intros k; eexists; eexists; split; reflexivity).
  split; [reflexivity |]. split; [exact H |].
  exact (three_calls_then_server_error two_retries always_unavailable 0%Q eq_refl H).
Defined.

(** ** The rate limiter on entry *)

Section RateLimit.

Variable cfg : Config.
Variable tr : transport.

(** The answer of the breaker does not depend on the session. *)
Lemma check_after_initialize s :
  snd (_check_circuit_breaker cfg (fst (initialize s)))
  = snd (_check_circuit_breaker cfg s).
Proof.
  unfold initialize, bind, get, modify, ret. cbn.
  destruct (session s); [reflexivity |].
  unfold _check_circuit_breaker.
  destruct (circuit_breaker_enabled cfg); [| reflexivity]. cbn.
  destruct (circuit_breaker_state s); cbn; try reflexivity.
  destruct (circuit_breaker_last_failure_time s); cbn; [| reflexivity].
  destruct (Qltb _ _); reflexivity.
Qed.

(** Up to the rate limiter, a call changes neither the rate-limit
    attributes nor the environment. *)
Lemma before_rate_limit s :
  let s' := fst (_check_circuit_breaker cfg (fst (initialize s))) in
  rate_limit_remaining s' = rate_limit_remaining s /\
  rate_limit_reset s' = rate_limit_reset s /\
  clock s' = clock s /\ transport_calls s' = transport_calls s /\ slept s' = slept s.
Proof.
  set (P := fun x : State =>
              rate_limit_remaining x = rate_limit_remaining s /\
              rate_limit_reset x = rate_limit_reset s /\
              clock x = clock s /\ transport_calls x = transport_calls s /\
              slept x = slept s).
  assert (H1 : preserves P initialize)
    by (intros x Hx; unfold initialize; cbn; destruct (session x); exact Hx).
  assert (H2 : preserves P (_check_circuit_breaker cfg)).
  { intros x Hx. unfold _check_circuit_breaker.
    destruct (circuit_breaker_enabled cfg); cbn; [| exact Hx].
    destruct (circuit_breaker_state x); cbn; try exact Hx.
    destruct (circuit_breaker_last_failure_time x); cbn; [| exact Hx].
    destruct (Qltb _ _); exact Hx. }
  apply H2, H1. repeat split.
Qed.


End RateLimit.



(** ** Fatal failures *)

(** C1.  The code retries the failures that the spec, and its own
    comment "Client error - don't retry", call fatal: the exception
    raised for a 404 or a 401 is caught by the catch-all handler of the
    loop, which sleeps and goes on.  With the default options, a 404 or
    a 401 followed by a 200 gives two transport calls and the 200 to the
    caller; a transport that always answers 404 is called 4 times. *)
Theorem fatal_failures_are_retried :
  (snd (_make_request default_config not_found_then_ok (init 0))
   = Ok (Some (mkResponse 200 [] "ok")) /\
   transport_calls (fst (_make_request default_config not_found_then_ok (init 0))) = 2%nat /\
   slept (fst (_make_request default_config not_found_then_ok (init 0))) = [1%Q]) /\
  (snd (_make_request default_config unauthorized_then_ok (init 0))
   = Ok (Some (mkResponse 200 [] "ok")) /\
   transport_calls (fst (_make_request default_config unauthorized_then_ok (init 0))) = 2%nat) /\
  transport_calls (fst (_make_request default_config always_not_found (init 0))) = 4%nat.
Proof. repeat split. Qed.

(** ** Statistics *)

(** C10.  [get_stats] never divides by zero: in every state it returns
    a snapshot, and the error rate of the snapshot is
    error_count / max(request_count, 1); with no request counted, that
    is error_count / 1. *)
Theorem get_stats_total (cfg : Config) (s : State) :
  exists stats,
    get_stats cfg s = (s, Ok stats) /\
    stats_error_rate stats
    = (inject_Z (error_count s) / inject_Z (Z.max (request_count s) 1))%Q /\
    stats_request_count stats = request_count s /\
    stats_error_count stats = error_count s /\
    Z.max (request_count s) 1 <> 0 /\
    (request_count s = 0 ->
     stats_error_rate stats = (inject_Z (error_count s) / inject_Z 1)%Q).
Proof.
  eexists. split.
  - unfold get_stats, bind, get, truediv.
    destruct (Z.eqb_spec (Z.max (request_count s) 1) 0); [lia | reflexivity].
  - cbn. repeat split; try lia. intros ->. reflexivity.
Qed.

(** * Further properties of the client *)

(** ** One attempt, in full *)

Lemma requests_reported cfg s :
  rate_limit_requests (reported cfg s) = rate_limit_requests s.
Proof.
  unfold reported, _update_circuit_breaker.
  destruct (circuit_breaker_enabled cfg); [| reflexivity]. cbn.
  destruct (_ && _); reflexivity.
Qed.

Lemma requests_received dt r s :
  rate_limit_requests (received dt r s) = rate_limit_requests s ++ [clock s].
Proof. apply received_frame. Qed.

Lemma request_count_reported cfg s : request_count (reported cfg s) = request_count s.
Proof. apply (update_frame cfg false s). Qed.

Lemma request_count_received dt r s :
  request_count (received dt r s) = request_count s + 1.
Proof. apply received_frame. Qed.

#[global] Hint Rewrite requests_reported requests_received
  request_count_reported request_count_received : frame.

Ltac frame' :=
  repeat (autorewrite with frame;
          cbn [transport_calls error_count slept clock counted waited interrupted
               rate_limit_requests request_count
               set_error_count set_slept set_clock set_transport_calls
               set_rate_limit_requests fst snd]).

Section AttemptFacts.

Variable cfg : Config.
Variable tr : transport.

(** What one pass through the loop does to the counters, whatever the
    transport answers. *)
Lemma attempt_facts attempt s :
  let o := fst (tr (transport_calls s)) in
  let s' := fst (attempt_iter cfg tr attempt s) in
  transport_calls s' = S (transport_calls s) /\
  rate_limit_requests s' = rate_limit_requests s ++ [clock s] /\
  match snd (attempt_iter cfg tr attempt s) with
  | Ok Continue =>
      is_failure o = true /\ attempt < max_retries cfg /\
      List.length (slept s') = S (List.length (slept s)) /\
      error_count s' = error_count s
  | Ok (Return r) =>
      o = Responded r /\ status r < 400 /\
      slept s' = slept s /\ error_count s' = error_count s
  | Raise e =>
      is_failure o = true /\ max_retries cfg <= attempt /\
      slept s' = slept s /\ error_count s' = error_count s + 1 /\
      is_api_error (exn_class e) = true /\ exn_message e <> CircuitOpenMsg
  end.
Proof.
  cbv zeta.
  assert (Hlen : forall d x, List.length (slept (waited d x)) = S (List.length (slept x)))
    by (intros d x; cbn; rewrite length_app; cbn; lia).
  destruct (tr (transport_calls s)) as [[r | | name text] dt] eqn:Htr; cbn [fst].
  - destruct (Z_lt_le_dec (status r) 400) as [Hok | Hfail].
    + rewrite (attempt_success cfg tr attempt s r dt Htr Hok). cbn [fst snd].
      destruct (update_frame cfg true (received dt r s)) as (_ & Hc & Hs & He & _).
      rewrite Hc, Hs, He. frame'.
      assert (Hr : rate_limit_requests (fst (_update_circuit_breaker cfg true (received dt r s)))
                   = rate_limit_requests (received dt r s)).
      { unfold _update_circuit_breaker.
        destruct (circuit_breaker_enabled cfg); [| reflexivity]. cbn.
        destruct (circuit_breaker_state _); reflexivity. }
      rewrite Hr. frame'. repeat split; assumption.
    + assert (Hf : (400 <=? status r) = true) by (apply Z.leb_le; exact Hfail).
      destruct (Z.eq_dec (status r) 429) as [H429 | H429];
        [| destruct (Z.eq_dec (status r) 401) as [H401 | H401];
           [| destruct (Z_lt_le_dec (status r) 500) as [H4 | H5]]].
      * rewrite (attempt_429 cfg tr attempt s r dt Htr H429).
        destruct (Z.ltb_spec attempt (max_retries cfg)); cbn [fst snd];
          rewrite ?Hlen; frame'; cbn [is_failure]; rewrite Hf;
          repeat split; try assumption; try lia; discriminate.
      * rewrite (attempt_401 cfg tr attempt s r dt Htr H401).
        destruct (Z.ltb_spec attempt (max_retries cfg)); cbn [fst snd];
          rewrite ?Hlen; frame'; cbn [is_failure]; rewrite Hf;
          repeat split; try assumption; try lia; discriminate.
      * rewrite (attempt_4xx cfg tr attempt s r dt Htr (conj Hfail H4) H401 H429).
        destruct (Z.ltb_spec attempt (max_retries cfg)); cbn [fst snd];
          rewrite ?Hlen; frame'; cbn [is_failure]; rewrite Hf;
          repeat split; try assumption; try lia; discriminate.
      * rewrite (attempt_5xx cfg tr attempt s r dt Htr H5).
        destruct (Z.ltb_spec attempt (max_retries cfg)); cbn [fst snd];
          rewrite ?Hlen; frame'; cbn [is_failure]; rewrite Hf;
          repeat split; try assumption; try lia; discriminate.
  - rewrite (attempt_timed_out cfg tr attempt s dt Htr).
    destruct (Z.ltb_spec attempt (max_retries cfg)); cbn [fst snd];
      rewrite ?Hlen; frame'; repeat split; try assumption; try lia; discriminate.
  - rewrite (attempt_failed cfg tr attempt s name text dt Htr).
    destruct (Z.ltb_spec attempt (max_retries cfg)); cbn [fst snd];
      rewrite ?Hlen; frame'; repeat split; try assumption; try lia; discriminate.
Qed.

End AttemptFacts.

(** ** The loop, in full *)

Section LoopFacts.

Variable cfg : Config.
Variable tr : transport.

(** The loop with [S n] attempts left, the last of them being attempt
    [max_retries]: it makes [k] transport calls, of which all but the
    last failed, and sleeps between two calls only. *)
Lemma loop_facts n :
  forall attempt s,
    Z.of_nat (S n) + attempt = max_retries cfg + 1 ->
    let s' := fst (for_attempts cfg tr (S n) attempt s) in
    exists k,
      (1 <= k <= S n)%nat /\
      transport_calls s' = (transport_calls s + k)%nat /\
      List.length (slept s') = (List.length (slept s) + (k - 1))%nat /\
      List.length (rate_limit_requests s')
      = (List.length (rate_limit_requests s) + k)%nat /\
      (forall j, (j + 1 < k)%nat ->
                 is_failure (fst (tr (transport_calls s + j)%nat)) = true) /\
      match snd (for_attempts cfg tr (S n) attempt s) with
      | Ok (Some r) =>
          fst (tr (transport_calls s + (k - 1))%nat) = Responded r /\
          status r < 400 /\ error_count s' = error_count s
      | Ok None => False
      | Raise e =>
          k = S n /\
          is_failure (fst (tr (transport_calls s + (k - 1))%nat)) = true /\
          error_count s' = error_count s + 1 /\
          is_api_error (exn_class e) = true /\ exn_message e <> CircuitOpenMsg
      end.
Proof.
  induction n as [| n IH]; intros attempt s Hn; cbv zeta.
  - cbn [for_attempts]. unfold bind.
    pose proof (attempt_facts cfg tr attempt s) as H. cbv zeta in H.
    destruct (attempt_iter cfg tr attempt s) as [s1 [[| r] | e]]; cbn [fst snd ret] in *.
    + destruct H as (_ & _ & _ & Hlt & _). lia.
    + destruct H as (Hc & Hr & Ho & Hst & Hsl & He).
      exists 1%nat. rewrite Hc, Hr, Hsl, length_app. cbn [List.length Nat.sub].
      rewrite Nat.add_0_r.
      repeat split; rewrite ?Nat.add_0_r; try lia; try assumption.
    + destruct H as (Hc & Hr & Hf & _ & Hsl & He & Hcl & Hm).
      exists 1%nat. rewrite Hc, Hr, Hsl, length_app. cbn [List.length Nat.sub].
      rewrite Nat.add_0_r.
      repeat split; rewrite ?Nat.add_0_r; try lia; try assumption.
  - change (for_attempts cfg tr (S (S n)) attempt s)
      with (bind (attempt_iter cfg tr attempt)
              (fun f => match f with
                        | Continue => for_attempts cfg tr (S n) (attempt + 1)
                        | Return r => ret (Some r)
                        end) s).
    unfold bind.
    pose proof (attempt_facts cfg tr attempt s) as H. cbv zeta in H.
    destruct (attempt_iter cfg tr attempt s) as [s1 [[| r] | e]]; cbn [fst snd ret] in *.
    + destruct H as (Hc & Hr & Hf & Hlt & Hsl & He).
      destruct (IH (attempt + 1) s1) as (k & Hk & Hc' & Hsl' & Hr' & Hfail & Hres); [lia |].
      exists (S k). rewrite Hc', Hsl', Hr', Hc, Hr, Hsl, length_app. cbn [List.length].
      split; [lia |]. split; [lia |]. split; [lia |]. split; [lia |]. split.
      * intros j Hj. destruct j as [| j].
        -- rewrite Nat.add_0_r. exact Hf.
        -- replace (transport_calls s + S j)%nat with (S (transport_calls s) + j)%nat by lia.
           rewrite <- Hc. apply Hfail. lia.
      * replace (transport_calls s + (S k - 1))%nat
          with (transport_calls s1 + (k - 1))%nat by lia.
        destruct (snd (for_attempts cfg tr (S n) (attempt + 1) s1)) as [[r |] | e].
        -- destruct Hres as (A & B & C). repeat split; try assumption. lia.
        -- exact Hres.
        -- destruct Hres as (A & B & C & D & E). repeat split; try assumption; lia.
    + destruct H as (Hc & Hr & Ho & Hst & Hsl & He).
      exists 1%nat. rewrite Hc, Hr, Hsl, length_app. cbn [List.length Nat.sub].
      rewrite Nat.add_0_r.
      repeat split; rewrite ?Nat.add_0_r; try lia; try assumption.
    + destruct H as (_ & _ & _ & Hge & _). lia.
Qed.

End LoopFacts.

(** ** A whole call *)

Section Call.

Variable cfg : Config.
Variable tr : transport.

Lemma admission_raises_api_error s e :
  snd (admission cfg s) = Raise e -> is_api_error (exn_class e) = true.
Proof.
  unfold admission, bind, initialize, get, modify, ret. cbn.
  destruct (session s); cbn.
  - unfold _check_circuit_breaker.
    destruct (circuit_breaker_enabled cfg); cbn.
    + destruct (circuit_breaker_state s); cbn.
      * unfold _check_rate_limit. cbn.
        destruct (rate_limited _ _); cbn; [| discriminate].
        destruct (rate_limit_reset s); cbn; [| discriminate].
        intros [= <-]. reflexivity.
      * destruct (circuit_breaker_last_failure_time s); cbn.
        -- destruct (Qltb _ _); cbn.
           ++ unfold _check_rate_limit. cbn.
              destruct (rate_limited _ _); cbn; [| discriminate].
              destruct (rate_limit_reset s); cbn; [| discriminate].
              intros [= <-]. reflexivity.
           ++ intros [= <-]. reflexivity.
        -- intros [= <-]. reflexivity.
      * unfold _check_rate_limit. cbn.
        destruct (rate_limited _ _); cbn; [| discriminate].
        destruct (rate_limit_reset s); cbn; [| discriminate].
        intros [= <-]. reflexivity.
    + unfold _check_rate_limit. cbn.
      destruct (rate_limited _ _); cbn; [| discriminate].
      destruct (rate_limit_reset s); cbn; [| discriminate].
      intros [= <-]. reflexivity.
  - unfold _check_circuit_breaker.
    destruct (circuit_breaker_enabled cfg); cbn.
    + destruct (circuit_breaker_state s); cbn.
      * unfold _check_rate_limit. cbn.
        destruct (rate_limited _ _); cbn; [| discriminate].
        destruct (rate_limit_reset s); cbn; [| discriminate].
        intros [= <-]. reflexivity.
      * destruct (circuit_breaker_last_failure_time s); cbn.
        -- destruct (Qltb _ _); cbn.
           ++ unfold _check_rate_limit. cbn.
              destruct (rate_limited _ _); cbn; [| discriminate].
              destruct (rate_limit_reset s); cbn; [| discriminate].
              intros [= <-]. reflexivity.
           ++ intros [= <-]. reflexivity.
        -- intros [= <-]. reflexivity.
      * unfold _check_rate_limit. cbn.
        destruct (rate_limited _ _); cbn; [| discriminate].
        destruct (rate_limit_reset s); cbn; [| discriminate].
        intros [= <-]. reflexivity.
    + unfold _check_rate_limit. cbn.
      destruct (rate_limited _ _); cbn; [| discriminate].
      destruct (rate_limit_reset s); cbn; [| discriminate].
      intros [= <-]. reflexivity.
Qed.

(** The admission checks leave the counters of the statistics alone
    and leave the session open. *)
Lemma admission_counters s :
  request_count (fst (admission cfg s)) = request_count s /\
  session (fst (admission cfg s)) = true.
Proof.
  set (P := fun x : State => request_count x = request_count s /\ session x = true).
  assert (H : forall x, request_count x = request_count s -> P (fst (admission cfg x))).
  { intros x Hx. unfold admission.
    assert (H1 : P (fst (initialize x)))
      by (unfold P, initialize; cbn; destruct (session x) eqn:E; cbn; split; auto).
    assert (H2 : preserves P (_check_circuit_breaker cfg)).
    { intros y Hy. unfold _check_circuit_breaker.
      destruct (circuit_breaker_enabled cfg); cbn; [| exact Hy].
      destruct (circuit_breaker_state y); cbn; try exact Hy.
      destruct (circuit_breaker_last_failure_time y); cbn; [| exact Hy].
      destruct (Qltb _ _); exact Hy. }
    assert (H3 : preserves P _check_rate_limit).
    { intros y Hy. unfold _check_rate_limit. cbn.
      destruct (rate_limited _ _); [| exact Hy].
      destruct (rate_limit_reset y); exact Hy. }
    unfold bind.
    assert (Hi : initialize x = (fst (initialize x), Ok tt))
      by (unfold initialize; cbn; destruct (session x); reflexivity).
    rewrite Hi.
    specialize (H2 _ H1).
    destruct (_check_circuit_breaker cfg (fst (initialize x))) as [y [[] | e]];
      cbn [fst] in *; [apply H3, H2 | exact H2]. }
  apply H. reflexivity.
Qed.

(** X1.  Whatever the transport does, one call makes at most
    max_retries + 1 transport calls and sleeps at most max_retries
    times. *)
Theorem make_request_bounded (s : State) :
  (transport_calls (fst (_make_request cfg tr s))
   <= transport_calls s + Z.to_nat (max_retries cfg + 1))%nat /\
  (List.length (slept (fst (_make_request cfg tr s)))
   <= List.length (slept s) + Z.to_nat (max_retries cfg))%nat.
Proof.
  rewrite make_request_admission. unfold bind.
  destruct (admission_frame cfg s) as (Hc & Hs & _).
  destruct (admission cfg s) as [s0 [[] | e]]; cbn [fst] in *.
  - destruct (Z.to_nat (max_retries cfg + 1)) as [| n] eqn:En.
    + cbn. rewrite Hc, Hs. lia.
    + destruct (loop_facts cfg tr n 0 s0) as (k & Hk & Hc' & Hs' & _); [lia |].
      rewrite Hc', Hs', Hc, Hs. lia.
  - rewrite Hc, Hs. lia.
Qed.


(** X3.  A call that the breaker or the rate limiter refuses leaves the
    statistics as they were: no request and no error is counted, no
    transport call is made and nothing is slept. *)
Theorem refused_call_counts_nothing (s : State) (e : exn) :
  snd (admission cfg s) = Raise e ->
  snd (_make_request cfg tr s) = Raise e /\
  request_count (fst (_make_request cfg tr s)) = request_count s /\
  error_count (fst (_make_request cfg tr s)) = error_count s /\
  transport_calls (fst (_make_request cfg tr s)) = transport_calls s /\
  slept (fst (_make_request cfg tr s)) = slept s.
Proof.
  intros Hadm. rewrite make_request_admission. unfold bind.
  destruct (admission_frame cfg s) as (Hc & Hs & He & _).
  destruct (admission_counters s) as (Hr & _).
  destruct (admission cfg s) as [s0 [[] | e']]; cbn [fst snd] in *; [discriminate |].
  injection Hadm as ->. repeat split; assumption.
Qed.

(** X4.  An admitted call that returns counts no error.  As long as
    the powers of the retry delays stay in the range of a float, an
    admitted call that raises counts exactly one error, and it raises
    only after all its max_retries + 1 attempts were made and failed. *)
Theorem error_counted_after_all_attempts (s : State) :
  0 <= max_retries cfg ->
  snd (admission cfg s) = Ok tt ->
  match snd (_make_request cfg tr s) with
  | Ok _ => error_count (fst (_make_request cfg tr s)) = error_count s
  | Raise _ =>
      no_overflow cfg ->
      error_count (fst (_make_request cfg tr s)) = error_count s + 1 /\
      transport_calls (fst (_make_request cfg tr s))
      = (transport_calls s + Z.to_nat (max_retries cfg + 1))%nat /\
      forall j, (j < Z.to_nat (max_retries cfg + 1))%nat ->
                is_failure (fst (tr (transport_calls s + j)%nat)) = true
  end.
Proof.
  intros Hmax Hadm. rewrite make_request_admission. unfold bind.
  destruct (admission_frame cfg s) as (Hc & _ & He & _).
  destruct (admission cfg s) as [s0 [[] | e']]; cbn [fst snd] in *; [| discriminate].
  destruct (Z.to_nat (max_retries cfg + 1)) as [| n] eqn:En; [lia |].
  destruct (loop_facts cfg tr n 0 s0) as (k & Hk & Hc' & _ & _ & Hfail & Hres); [lia |].
  destruct (snd (for_attempts cfg tr (S n) 0 s0)) as [[r |] | e].
  - destruct Hres as (_ & _ & ->). exact He.
  - destruct Hres.
  - intros _. destruct Hres as (-> & Hlast & -> & _). rewrite He, Hc', Hc.
    split; [reflexivity |]. split; [reflexivity |].
    intros j Hj. rewrite <- Hc.
    destruct (Nat.eq_dec j n) as [-> | Hne].
    + replace n with (S n - 1)%nat at 1 by lia. exact Hlast.
    + apply Hfail. lia.
Qed.


(** X6.  With a negative max_retries the loop has no attempt to make:
    an admitted call returns [None] without any transport call. *)
Theorem no_attempt_without_retries (s : State) :
  max_retries cfg < 0 ->
  snd (admission cfg s) = Ok tt ->
  snd (_make_request cfg tr s) = Ok None /\
  transport_calls (fst (_make_request cfg tr s)) = transport_calls s /\
  request_count (fst (_make_request cfg tr s)) = request_count s.
Proof.
  intros Hneg Hadm. rewrite make_request_admission. unfold bind.
  destruct (admission_frame cfg s) as (Hc & _).
  destruct (admission_counters s) as (Hr & _).
  destruct (admission cfg s) as [s0 [[] | e']]; cbn [fst snd] in *; [| discriminate].
  replace (Z.to_nat (max_retries cfg + 1)) with 0%nat by lia.
  cbn. repeat split; assumption.
Qed.

End Call.

(** ** Properties that only read the breaker and the session *)

Section BreakerOnly.

Variable cfg : Config.
Variable tr : transport.
Variable P : State -> Prop.

Hypothesis P_reads :
  forall x y, same_breaker x y -> session y = session x -> P x -> P y.
Hypothesis P_update : forall success, preserves P (_update_circuit_breaker cfg success).
Hypothesis P_check : preserves P (_check_circuit_breaker cfg).
Hypothesis P_initialize : preserves P initialize.

Lemma kept_by_rate_limit_info h : preserves P (_update_rate_limit_info h).
Proof.
  intros s H. unfold _update_rate_limit_info.
  repeat match goal with
         | |- context [match ?x with _ => _ end] => destruct x
         end; cbn; try exact H; (eapply P_reads; [| | exact H]); repeat split.
Qed.

Lemma kept_by_sleep d : preserves P (sleep d).
Proof. intros s H. eapply P_reads; [| | exact H]; repeat split. Qed.

Lemma kept_by_session_request : preserves P (session_request tr).
Proof.
  intros s H. unfold session_request.
  destruct (tr (transport_calls s)) as [[r | | name text] dt]; cbn;
    (eapply P_reads; [| | exact H]); repeat split.
Qed.

Lemma kept_by_check_rate_limit : preserves P _check_rate_limit.
Proof.
  intros s H. unfold _check_rate_limit. cbn.
  destruct (rate_limited _ _);
    [destruct (rate_limit_reset _) |]; cbn;
    (eapply P_reads; [| | exact H]); repeat split.
Qed.

Ltac kept :=
  repeat first
    [ match goal with
      | |- preserves _ (if ?b then _ else _) => destruct b
      end
    | apply preserves_bind; [| intros ? ]
    | apply preserves_ret
    | apply preserves_raise
    | apply P_update
    | apply kept_by_sleep
    | apply kept_by_rate_limit_info
    | apply kept_by_session_request
    | apply preserves_read; reflexivity
    | match goal with
      | |- preserves _ (modify _) =>
          apply preserves_modify; intros ? Hkept;
          (eapply P_reads; [| | exact Hkept]); repeat split
      end ].

Lemma kept_by_attempt attempt : preserves P (attempt_iter cfg tr attempt).
Proof.
  unfold attempt_iter. apply preserves_try.
  - unfold attempt_body, handle_status. kept.
  - intros e. destruct (exn_class e); unfold on_timeout, on_exception; kept.
Qed.

Lemma kept_by_loop n : forall attempt, preserves P (for_attempts cfg tr n attempt).
Proof.
  induction n as [| n IH]; intros attempt; cbn [for_attempts].
  - apply preserves_ret.
  - apply preserves_bind; [apply kept_by_attempt |].
    intros [| r]; [apply IH | apply preserves_ret].
Qed.

Lemma kept_by_make_request : preserves P (_make_request cfg tr).
Proof.
  unfold _make_request.
  apply preserves_bind; [apply P_initialize | intros _].
  apply preserves_bind; [apply P_check | intros _].
  apply preserves_bind; [apply kept_by_check_rate_limit | intros _].
  apply kept_by_loop.
Qed.

Lemma kept_by_health_loop endpoints :
  preserves P (health_endpoints_loop cfg tr endpoints).
Proof.
  induction endpoints as [| e rest IH]; cbn [health_endpoints_loop].
  - apply preserves_ret.
  - apply preserves_bind.
    + apply preserves_try.
      * apply preserves_bind; [apply kept_by_make_request |].
        intros [r |]; [apply preserves_ret | apply preserves_raise].
      * intros x. destruct (is_api_error _); [apply preserves_ret | apply preserves_raise].
    + intros [|]; [apply preserves_ret | exact IH].
Qed.

Lemma kept_by_health_check : preserves P (health_check cfg tr).
Proof.
  unfold health_check. apply preserves_try.
  - apply kept_by_health_loop.
  - intros e. apply preserves_ret.
Qed.

End BreakerOnly.

(** ** The breaker over the life of a client *)

Lemma update_keeps_session cfg success s :
  session (fst (_update_circuit_breaker cfg success s)) = session s.
Proof.
  unfold _update_circuit_breaker.
  destruct (circuit_breaker_enabled cfg); [| reflexivity].
  destruct success; cbn.
  - destruct (circuit_breaker_state s); reflexivity.
  - destruct (_ && _); reflexivity.
Qed.

Lemma check_keeps_session cfg s :
  session (fst (_check_circuit_breaker cfg s)) = session s.
Proof.
  unfold _check_circuit_breaker.
  destruct (circuit_breaker_enabled cfg); [| reflexivity]. cbn.
  destruct (circuit_breaker_state s); cbn; try reflexivity.
  destruct (circuit_breaker_last_failure_time s); cbn; [| reflexivity].
  destruct (Qltb _ _); reflexivity.
Qed.

(** X7.  Every state that a client reaches, from its creation through
    calls, health checks, resets of the statistics and the passing of
    time, keeps the breaker consistent: the failure count is never
    negative, and a breaker that is open or half-open has a count at or
    above the threshold and a recorded time of last failure. *)
Theorem reachable_breaker_inv (cfg : Config) (s : State) :
  reachable cfg s -> breaker_inv cfg s.
Proof.
  induction 1 as [now | s t _ IH | tr s _ IH | tr s _ IH | s _ IH | s _ IH | s _ IH].
  - apply inv_init.
  - exact IH.
  - apply inv_make_request, IH.
  - apply (kept_by_health_check cfg tr (breaker_inv cfg)); try exact IH.
    + intros x y Hxy _. apply inv_same_breaker, Hxy.
    + intros success. apply inv_update.
    + apply inv_check.
    + apply inv_initialize.
  - apply inv_reset_stats, IH.
  - apply inv_initialize, IH.
  - exact IH.
Qed.

Section Disabled.

Variable cfg : Config.
Variable tr : transport.
Hypothesis disabled : circuit_breaker_enabled cfg = false.

Lemma disabled_update success s : _update_circuit_breaker cfg success s = (s, Ok tt).
Proof. unfold _update_circuit_breaker. rewrite disabled. reflexivity. Qed.

Lemma disabled_check s : _check_circuit_breaker cfg s = (s, Ok tt).
Proof. unfold _check_circuit_breaker. rewrite disabled. reflexivity. Qed.

(** X8.  With the breaker switched off, a call never raises the
    circuit-open error and leaves the state, the failure count and the
    time of last failure of the breaker as they were, whatever the
    transport does. *)
Theorem disabled_breaker_is_inert (s : State) :
  same_breaker s (fst (_make_request cfg tr s)) /\
  snd (_make_request cfg tr s) <> Raise circuit_open.
Proof.
  split.
  - apply (kept_by_make_request cfg tr (same_breaker s)).
    + intros x y Hxy _ Hx. eapply same_breaker_trans; eassumption.
    + intros success x Hx. rewrite disabled_update. exact Hx.
    + intros x Hx. rewrite disabled_check. exact Hx.
    + intros x Hx. unfold initialize. cbn. destruct (session x); exact Hx.
    + apply same_breaker_refl.
  - rewrite make_request_admission. unfold bind.
    assert (Hadm : forall e, snd (admission cfg s) = Raise e -> e <> circuit_open).
    { intros e. unfold admission, bind.
      assert (Hi : initialize s = (fst (initialize s), Ok tt))
        by (unfold initialize; cbn; destruct (session s); reflexivity).
      rewrite Hi, disabled_check. unfold _check_rate_limit. cbn.
      destruct (rate_limited _ _); cbn; [| discriminate].
      destruct (rate_limit_reset _); cbn; [| discriminate].
      intros [= <-]. discriminate. }
    destruct (admission cfg s) as [s0 [[] | e]]; cbn [fst snd] in *.
    + destruct (Z.to_nat (max_retries cfg + 1)) as [| n] eqn:En; [cbn; discriminate |].
      destruct (Z_le_gt_dec 0 (max_retries cfg)) as [Hmax | Hmax]; [| lia].
      destruct (loop_facts cfg tr n 0 s0) as (k & _ & _ & _ & _ & _ & Hres); [lia |].
      destruct (snd (for_attempts cfg tr (S n) 0 s0)) as [[r |] | e]; try discriminate.
      destruct Hres as (_ & _ & _ & _ & Hm). intros [= ->]. apply Hm. reflexivity.
    + intros [= ->]. apply (Hadm circuit_open); reflexivity.
Qed.

End Disabled.

Section Accumulation.

Variable cfg : Config.
Hypothesis enabled : circuit_breaker_enabled cfg = true.

Lemma success_outside_half_open s :
  circuit_breaker_state s <> st_half_open ->
  _update_circuit_breaker cfg true s = (s, Ok tt).
Proof.
  intros H. unfold _update_circuit_breaker. rewrite enabled. cbn.
  destruct (circuit_breaker_state s); [reflexivity | reflexivity | congruence].
Qed.

Lemma failure_state s :
  circuit_breaker_state (reported cfg s)
  = if circuit_breaker_threshold cfg <=? circuit_breaker_failure_count s + 1
    then st_open else circuit_breaker_state s.
Proof.
  unfold reported, _update_circuit_breaker. rewrite enabled. cbn.
  destruct (circuit_breaker_threshold cfg <=? circuit_breaker_failure_count s + 1);
    destruct (circuit_breaker_state s) eqn:E; cbn; auto.
Qed.

Lemma report_all_facts outcomes :
  forall s,
    circuit_breaker_state s <> st_half_open ->
    circuit_breaker_failure_count (report_all cfg outcomes s)
    = circuit_breaker_failure_count s + failures_in outcomes /\
    circuit_breaker_state (report_all cfg outcomes s) <> st_half_open /\
    (circuit_breaker_state s = st_open ->
     circuit_breaker_state (report_all cfg outcomes s) = st_open) /\
    (0 < failures_in outcomes ->
     circuit_breaker_threshold cfg <= circuit_breaker_failure_count s + failures_in outcomes ->
     circuit_breaker_state (report_all cfg outcomes s) = st_open).
Proof.
  unfold failures_in.
  induction outcomes as [| [|] rest IH]; intros s Hs; cbn [report_all filter negb List.length].
  - cbn. repeat split; intros; try assumption; lia.
  - rewrite (success_outside_half_open s Hs). cbn [fst]. apply IH, Hs.
  - change (fst (_update_circuit_breaker cfg false s)) with (reported cfg s).
    assert (Hs1 : circuit_breaker_state (reported cfg s) <> st_half_open).
    { rewrite failure_state. destruct (_ <=? _); [discriminate | exact Hs]. }
    destruct (IH (reported cfg s) Hs1) as (Hc & Hh & Ho & Hth).
    rewrite (failures_of_reported cfg s enabled) in Hc, Hth.
    split; [rewrite Hc; lia |]. split; [exact Hh |]. split.
    + intros Hopen. apply Ho. rewrite failure_state, Hopen.
      destruct (_ <=? _); reflexivity.
    + intros _ Hge.
      destruct (Z.eq_dec (Z.of_nat (List.length (filter negb rest))) 0) as [Hz | Hnz].
      * apply Ho. rewrite failure_state.
        replace (circuit_breaker_threshold cfg <=? circuit_breaker_failure_count s + 1)
          with true by (symmetry; apply Z.leb_le; lia).
        reflexivity.
      * apply Hth; lia.
Qed.

(** X9.  The breaker counts failures in total, not in a row: a success
    reported to a closed breaker changes nothing, so that, from a closed
    breaker, any sequence of reports that holds at least one failure
    and enough failures to reach the threshold leaves the breaker open,
    with the count raised by the number of failures, however many
    successes lie in between. *)
Theorem failures_accumulate_across_successes (outcomes : list bool) (s : State) :
  circuit_breaker_state s = st_closed ->
  0 < failures_in outcomes ->
  circuit_breaker_threshold cfg <= circuit_breaker_failure_count s + failures_in outcomes ->
  circuit_breaker_state (report_all cfg outcomes s) = st_open /\
  circuit_breaker_failure_count (report_all cfg outcomes s)
  = circuit_breaker_failure_count s + failures_in outcomes.
Proof.
  intros Hs Hpos Hge.
  destruct (report_all_facts outcomes s) as (Hc & _ & _ & Hopen);
    [rewrite Hs; discriminate |].
  split; [apply Hopen; assumption | exact Hc].
Qed.

(** X10.  At exactly the cooldown after the last failure an open
    breaker still refuses: the call raises the circuit-open error
    without a transport call, and the breaker stays open. *)
Theorem still_refused_at_cooldown (tr : transport) (s : State) (t : Q) :
  circuit_breaker_state s = st_open ->
  circuit_breaker_last_failure_time s = Some t ->
  (clock s - t == circuit_breaker_timeout cfg)%Q ->
  snd (_make_request cfg tr s) = Raise circuit_open /\
  circuit_breaker_state (fst (_make_request cfg tr s)) = st_open /\
  transport_calls (fst (_make_request cfg tr s)) = transport_calls s.
Proof.
  intros Hs Ht Heq.
  rewrite (make_request_blocked cfg tr s t enabled Hs Ht)
    by (rewrite Heq; apply Qle_refl).
  cbn [fst snd]. split; [reflexivity |].
  unfold initialize. cbn. destruct (session s); cbn; split; auto.
Qed.

End Accumulation.

(** X11.  [reset_stats] closes the breaker, so that the breaker admits
    the next call whatever it was before, but it does not forget what
    the server said about the rate limit: the rate limiter gives the
    same answer after the reset as before it. *)
Theorem reset_stats_closes_breaker_only (cfg : Config) (s : State) :
  snd (_check_circuit_breaker cfg (fst (reset_stats s))) = Ok tt /\
  snd (_check_rate_limit (fst (reset_stats s))) = snd (_check_rate_limit s) /\
  request_count (fst (reset_stats s)) = 0 /\
  error_count (fst (reset_stats s)) = 0 /\
  circuit_breaker_failure_count (fst (reset_stats s)) = 0.
Proof.
  split; [| split; [| repeat split]].
  - unfold _check_circuit_breaker. destruct (circuit_breaker_enabled cfg); reflexivity.
  - unfold _check_rate_limit, reset_stats. cbn.
    unfold rate_limited. cbn.
    destruct (rate_limit_remaining s); [| reflexivity].
    destruct (rate_limit_reset s); [| reflexivity].
    destruct (_ && _); reflexivity.
Qed.

(** X12.  A call opens the session and leaves it open, also when the
    call is refused or fails. *)
Theorem session_open_after_call (cfg : Config) (tr : transport) (s : State) :
  session (fst (_make_request cfg tr s)) = true.
Proof.
  set (P := fun x : State => session x = true).
  assert (Hrest : preserves P
            (bind (_check_circuit_breaker cfg)
               (fun _ => bind _check_rate_limit
                  (fun _ => for_attempts cfg tr (Z.to_nat (max_retries cfg + 1)) 0)))).
  { assert (Hreads : forall x y, same_breaker x y -> session y = session x -> P x -> P y)
      by (unfold P; intros x y _ -> Hx; exact Hx).
    assert (Hupd : forall success, preserves P (_update_circuit_breaker cfg success))
      by (unfold P; intros success x Hx; rewrite update_keeps_session; exact Hx).
    assert (Hchk : preserves P (_check_circuit_breaker cfg))
      by (unfold P; intros x Hx; rewrite check_keeps_session; exact Hx).
    apply preserves_bind; [exact Hchk | intros _].
    apply preserves_bind; [apply kept_by_check_rate_limit; exact Hreads | intros _].
    apply kept_by_loop; assumption. }
  unfold _make_request. unfold bind at 1.
  assert (Hi : initialize s = (fst (initialize s), Ok tt))
    by (unfold initialize; cbn; destruct (session s); reflexivity).
  rewrite Hi. apply Hrest.
  unfold P, initialize. cbn. destruct (session s) eqn:E; cbn; auto.
Qed.

(** ** The rate-limit headers *)


(** A well-formed remaining count is recorded even when the reset time
    of the same answer is refused, which then keeps its old value. *)
Lemma malformed_reset_keeps_old (h : headers) (s : State) (v v' : string) (n : Z) :
  lookup "X-RateLimit-Remaining" h = Some v ->
  py_int v = Some n ->
  lookup "X-RateLimit-Reset" h = Some v' ->
  py_int v' = None ->
  _update_rate_limit_info h s = (set_rate_limit_remaining (Some n) s, Ok tt).
Proof.
  intros Hl Hv Hl' Hv'. unfold _update_rate_limit_info.
  rewrite Hl, Hv, Hl', Hv'. reflexivity.
Qed.

Lemma limits_reported cfg success s :
  rate_limit_remaining (fst (_update_circuit_breaker cfg success s)) = rate_limit_remaining s /\
  rate_limit_reset (fst (_update_circuit_breaker cfg success s)) = rate_limit_reset s.
Proof.
  unfold _update_circuit_breaker.
  destruct (circuit_breaker_enabled cfg); [| split; reflexivity].
  destruct success; cbn.
  - destruct (circuit_breaker_state s); split; reflexivity.
  - destruct (_ && _); split; reflexivity.
Qed.

Section Limits.

Variable cfg : Config.
Variable tr : transport.

(** X14.  An attempt whose answer carries neither rate-limit header, or
    that gets no answer at all, leaves the recorded remaining count and
    reset time as they were, whatever the status of the answer. *)
Theorem attempt_without_rate_headers_keeps_limits (attempt : Z) (s : State) :
  (forall r dt, tr (transport_calls s) = (Responded r, dt) ->
                lookup "X-RateLimit-Remaining" (resp_headers r) = None /\
                lookup "X-RateLimit-Reset" (resp_headers r) = None) ->
  rate_limit_remaining (fst (attempt_iter cfg tr attempt s)) = rate_limit_remaining s /\
  rate_limit_reset (fst (attempt_iter cfg tr attempt s)) = rate_limit_reset s.
Proof.
  intros Hh.
  assert (Hrec : forall r dt, tr (transport_calls s) = (Responded r, dt) ->
            rate_limit_remaining (received dt r s) = rate_limit_remaining s /\
            rate_limit_reset (received dt r s) = rate_limit_reset s).
  { intros r dt Htr. destruct (Hh r dt Htr) as (H1 & H2).
    unfold received, _update_rate_limit_info. rewrite H1, H2. split; reflexivity. }
  assert (Hrep : forall x, rate_limit_remaining (reported cfg x) = rate_limit_remaining x /\
                           rate_limit_reset (reported cfg x) = rate_limit_reset x)
    by (intros x; apply limits_reported).
  destruct (tr (transport_calls s)) as [[r | | name text] dt] eqn:Htr.
  - destruct (Hrec r dt eq_refl) as (Ha & Hb).
    destruct (Z_lt_le_dec (status r) 400) as [Hok | Hfail].
    + rewrite (attempt_success cfg tr attempt s r dt Htr Hok). cbn [fst].
      destruct (limits_reported cfg true (received dt r s)) as (-> & ->).
      split; assumption.
    + destruct (Z.eq_dec (status r) 429) as [H429 | H429];
        [| destruct (Z.eq_dec (status r) 401) as [H401 | H401];
           [| destruct (Z_lt_le_dec (status r) 500) as [H4 | H5]]].
      * rewrite (attempt_429 cfg tr attempt s r dt Htr H429).
        destruct (attempt <? max_retries cfg); cbn [fst].
        -- split; assumption.
        -- destruct (Hrep (counted (received dt r s))) as (-> & ->). split; assumption.
      * rewrite (attempt_401 cfg tr attempt s r dt Htr H401).
        destruct (attempt <? max_retries cfg); cbn [fst].
        -- split; assumption.
        -- destruct (Hrep (counted (received dt r s))) as (-> & ->). split; assumption.
      * rewrite (attempt_4xx cfg tr attempt s r dt Htr (conj Hfail H4) H401 H429).
        destruct (attempt <? max_retries cfg); cbn [fst].
        -- destruct (Hrep (received dt r s)) as (Hc & Hd).
           cbn [waited rate_limit_remaining rate_limit_reset set_slept set_clock].
           rewrite Hc, Hd. split; assumption.
        -- destruct (Hrep (counted (reported cfg (received dt r s)))) as (-> & ->).
           destruct (Hrep (received dt r s)) as (Hc & Hd).
           cbn [counted rate_limit_remaining rate_limit_reset set_error_count].
           rewrite Hc, Hd. split; assumption.
      * rewrite (attempt_5xx cfg tr attempt s r dt Htr H5).
        destruct (attempt <? max_retries cfg); cbn [fst].
        -- split; assumption.
        -- destruct (Hrep (counted (reported cfg (received dt r s)))) as (-> & ->).
           destruct (Hrep (received dt r s)) as (Hc & Hd).
           cbn [counted rate_limit_remaining rate_limit_reset set_error_count].
           rewrite Hc, Hd. split; assumption.
  - rewrite (attempt_timed_out cfg tr attempt s dt Htr).
    destruct (attempt <? max_retries cfg); cbn [fst].
    + split; reflexivity.
    + destruct (Hrep (counted (interrupted dt s))) as (-> & ->). split; reflexivity.
  - rewrite (attempt_failed cfg tr attempt s name text dt Htr).
    destruct (attempt <? max_retries cfg); cbn [fst].
    + split; reflexivity.
    + destruct (Hrep (counted (interrupted dt s))) as (-> & ->). split; reflexivity.
Qed.

End Limits.

(** ** How many failures a failed call reports *)

Section FailedCall.

Variable cfg : Config.
Variable tr : transport.
Hypothesis enabled : circuit_breaker_enabled cfg = true.






End FailedCall.

(** ** The health check *)

Section Health.

Variable cfg : Config.
Variable tr : transport.

(** One call, as the health check sees it. *)
Lemma call_facts s :
  (transport_calls s <= transport_calls (fst (_make_request cfg tr s)))%nat /\
  (transport_calls (fst (_make_request cfg tr s))
   <= transport_calls s + Z.to_nat (max_retries cfg + 1))%nat /\
  match snd (_make_request cfg tr s) with
  | Ok (Some r) =>
      status r < 400 /\
      exists j, (transport_calls s <= j < transport_calls (fst (_make_request cfg tr s)))%nat /\
                fst (tr j) = Responded r
  | Ok None => True
  | Raise e => is_api_error (exn_class e) = true
  end.
Proof.
  rewrite make_request_admission. unfold bind.
  destruct (admission_frame cfg s) as (Hc & _).
  pose proof (admission_raises_api_error cfg s) as Hadm.
  destruct (admission cfg s) as [s0 [[] | e]]; cbn [fst snd] in *.
  - destruct (Z.to_nat (max_retries cfg + 1)) as [| n] eqn:En.
    + cbn. rewrite Hc. repeat split; lia.
    + destruct (Z_le_gt_dec 0 (max_retries cfg)) as [Hmax | Hmax]; [| lia].
      destruct (loop_facts cfg tr n 0 s0) as (k & Hk & Hc' & _ & _ & _ & Hres); [lia |].
      rewrite Hc', Hc. split; [lia |]. split; [lia |].
      destruct (snd (for_attempts cfg tr (S n) 0 s0)) as [[r |] | e].
      * destruct Hres as (Ho & Hst & _). split; [exact Hst |].
        exists (transport_calls s + (k - 1))%nat. rewrite Hc in Ho. split; [lia | exact Ho].
      * exact I.
      * apply Hres.
  - rewrite Hc. split; [lia |]. split; [lia |]. apply Hadm. reflexivity.
Qed.

Lemma health_loop_step e rest s :
  health_endpoints_loop cfg tr (e :: rest) s
  = match _make_request cfg tr s with
    | (s1, Ok (Some r)) =>
        if status r <? 400 then (s1, Ok true) else health_endpoints_loop cfg tr rest s1
    | (s1, Ok None) =>
        (s1, Raise (mkExn (OtherException "AttributeError")
                          (TransportMsg "'NoneType' object has no attribute 'status'")
                          None None))
    | (s1, Raise x) =>
        if is_api_error (exn_class x)
        then health_endpoints_loop cfg tr rest s1
        else (s1, Raise x)
    end.
Proof.
  cbn [health_endpoints_loop]. unfold bind, try_except.
  destruct (_make_request cfg tr s) as [s1 [[r |] | x]]; cbn.
  - destruct (status r <? 400); reflexivity.
  - reflexivity.
  - destruct (is_api_error (exn_class x)); reflexivity.
Qed.

Lemma health_loop_facts endpoints :
  forall s,
    (transport_calls s
     <= transport_calls (fst (health_endpoints_loop cfg tr endpoints s)))%nat /\
    (transport_calls (fst (health_endpoints_loop cfg tr endpoints s))
     <= transport_calls s + List.length endpoints * Z.to_nat (max_retries cfg + 1))%nat /\
    (snd (health_endpoints_loop cfg tr endpoints s) = Ok true ->
     exists j r,
       (transport_calls s <= j
        < transport_calls (fst (health_endpoints_loop cfg tr endpoints s)))%nat /\
       fst (tr j) = Responded r /\ status r < 400).
Proof.
  induction endpoints as [| e rest IH]; intros s.
  - cbn. repeat split; try lia. discriminate.
  - rewrite health_loop_step. cbn [List.length Nat.mul].
    set (m := (List.length rest * Z.to_nat (max_retries cfg + 1))%nat) in *.
    destruct (call_facts s) as (Hlo & Hhi & Hres).
    destruct (_make_request cfg tr s) as [s1 [[r |] | x]]; cbn [fst snd] in *.
    + destruct Hres as (Hst & j & Hj & Ho).
      destruct (Z.ltb_spec (status r) 400) as [_ | Hge]; [| lia].
      cbn [fst snd]. split; [lia |]. split; [lia |].
      intros _. exists j, r. repeat split; try lia; assumption.
    + split; [lia |]. split; [lia |]. discriminate.
    + rewrite Hres.
      destruct (IH s1) as (Hlo' & Hhi' & Htrue).
      split; [lia |]. split; [lia |].
      intros Ht. destruct (Htrue Ht) as (j & r & Hj & Ho & Hst).
      exists j, r. repeat split; try lia; assumption.
Qed.

(** X16.  The health check never raises: it answers a boolean whatever
    the transport does and whatever state the client is in, after at
    most 4 * (max_retries + 1) transport calls. *)
Theorem health_check_answers (s : State) :
  (exists b, snd (health_check cfg tr s) = Ok b) /\
  (transport_calls (fst (health_check cfg tr s))
   <= transport_calls s + 4 * Z.to_nat (max_retries cfg + 1))%nat.
Proof.
  unfold health_check, try_except.
  pose proof (health_loop_facts ["/health"; "/ping"; "/status"; "/"]%string s) as H.
  cbv zeta in H. destruct H as (_ & Hhi & _).
  destruct (health_endpoints_loop cfg tr _ s) as [s1 [b | e]]; cbn [fst snd ret] in *.
  - split; [exists b; reflexivity | exact Hhi].
  - split; [exists false; reflexivity | exact Hhi].
Qed.

(** X17.  The health check answers [True] only when one of the
    transport calls it made was answered with a status below 400. *)
Theorem health_check_true_means_answered (s : State) :
  snd (health_check cfg tr s) = Ok true ->
  exists j r,
    (transport_calls s <= j < transport_calls (fst (health_check cfg tr s)))%nat /\
    fst (tr j) = Responded r /\
    status r < 400.
Proof.
  unfold health_check, try_except.
  pose proof (health_loop_facts ["/health"; "/ping"; "/status"; "/"]%string s) as H.
  cbv zeta in H. destruct H as (_ & _ & Htrue).
  destruct (health_endpoints_loop cfg tr _ s) as [s1 [b | e]]; cbn [fst snd ret] in *.
  - exact Htrue.
  - discriminate.
Qed.

(** An open breaker within its cooldown refuses every endpoint. *)
Lemma health_loop_refused endpoints :
  forall s t,
    circuit_breaker_enabled cfg = true ->
    circuit_breaker_state s = st_open ->
    circuit_breaker_last_failure_time s = Some t ->
    (clock s - t <= circuit_breaker_timeout cfg)%Q ->
    snd (health_endpoints_loop cfg tr endpoints s) = Ok false /\
    transport_calls (fst (health_endpoints_loop cfg tr endpoints s)) = transport_calls s /\
    circuit_breaker_state (fst (health_endpoints_loop cfg tr endpoints s)) = st_open.
Proof.
  induction endpoints as [| e rest IH]; intros s t He Hs Ht Hc.
  - cbn. repeat split. exact Hs.
  - rewrite health_loop_step.
    rewrite (make_request_blocked cfg tr s t He Hs Ht Hc).
    cbn [is_api_error exn_class].
    assert (Hi : circuit_breaker_state (fst (initialize s)) = st_open /\
                 circuit_breaker_last_failure_time (fst (initialize s)) = Some t /\
                 clock (fst (initialize s)) = clock s /\
                 transport_calls (fst (initialize s)) = transport_calls s)
      by (unfold initialize; cbn; destruct (session s); cbn; repeat split; assumption).
    destruct Hi as (Hs' & Ht' & Hc' & Hn').
    destruct (IH (fst (initialize s)) t He Hs' Ht') as (A & B & C).
    + rewrite Hc'. exact Hc.
    + rewrite A, B, C, Hn'. repeat split.
Qed.

(** X18.  While the breaker is open and within its cooldown, the health
    check answers [False] without a single transport call, and leaves
    the breaker open. *)
Theorem health_check_refused_by_breaker (s : State) (t : Q) :
  circuit_breaker_enabled cfg = true ->
  circuit_breaker_state s = st_open ->
  circuit_breaker_last_failure_time s = Some t ->
  (clock s - t <= circuit_breaker_timeout cfg)%Q ->
  snd (health_check cfg tr s) = Ok false /\
  transport_calls (fst (health_check cfg tr s)) = transport_calls s /\
  circuit_breaker_state (fst (health_check cfg tr s)) = st_open.
Proof.
  intros He Hs Ht Hc. unfold health_check, try_except.
  destruct (health_loop_refused ["/health"; "/ping"; "/status"; "/"]%string s t He Hs Ht Hc)
    as (A & B & C).
  destruct (health_endpoints_loop cfg tr _ s) as [s1 [b | e]]; cbn [fst snd] in *.
  - repeat split; assumption.
  - discriminate.
Qed.

(** X19.  When the client is admitted and the first transport call is
    answered with a status below 400, the health check answers [True]
    after that single call: the other endpoints are not tried. *)
Theorem health_check_first_answer (s : State) (r : response) :
  0 <= max_retries cfg ->
  snd (admission cfg s) = Ok tt ->
  fst (tr (transport_calls s)) = Responded r ->
  status r < 400 ->
  snd (health_check cfg tr s) = Ok true /\
  transport_calls (fst (health_check cfg tr s)) = S (transport_calls s).
Proof.
  intros Hmax Hadm Ho Hst.
  assert (Hcall : snd (_make_request cfg tr s) = Ok (Some r) /\
                  transport_calls (fst (_make_request cfg tr s)) = S (transport_calls s)).
  { rewrite make_request_admission. unfold bind.
    destruct (admission_frame cfg s) as (Hc & _).
    destruct (admission cfg s) as [s0 [[] | e']]; cbn [fst snd] in *; [| discriminate].
    replace (Z.to_nat (max_retries cfg + 1)) with (S (Z.to_nat (max_retries cfg))) by lia.
    cbn [for_attempts]. unfold bind.
    rewrite <- Hc in Ho.
    destruct (tr (transport_calls s0)) as [o dt] eqn:Htr. cbn [fst] in Ho. subst o.
    rewrite (attempt_success cfg tr 0 s0 r dt Htr Hst). cbn [ret fst snd].
    split; [reflexivity |].
    destruct (update_frame cfg true (received dt r s0)) as (_ & -> & _).
    rewrite calls_received, Hc. reflexivity. }
  destruct Hcall as (Hres & Hcalls).
  unfold health_check, try_except. rewrite health_loop_step.
  destruct (_make_request cfg tr s) as [s1 res]; cbn [fst snd] in *. subst res.
  destruct (Z.ltb_spec (status r) 400) as [_ | Hge]; [| lia].
  cbn [fst snd]. split; [reflexivity | exact Hcalls].
Qed.

End Health.

(** ** The window of recent requests *)

Section Window.

Variable cfg : Config.
Variable tr : transport.
Hypothesis latency : forall k, (0 <= snd (tr k))%Q.

(** The clock does not go back during an attempt. *)
Lemma attempt_clock attempt s :
  (clock s <= clock (fst (attempt_iter cfg tr attempt s)))%Q.
Proof.
  pose proof (latency (transport_calls s)) as Hdt.
  assert (Hw : forall d, (0 <= Qmax d 0)%Q) by (intros d; apply Q.le_max_r).
  destruct (tr (transport_calls s)) as [[r | | name text] dt] eqn:Htr; cbn [snd] in Hdt.
  - destruct (Z_lt_le_dec (status r) 400) as [Hok | Hfail].
    + rewrite (attempt_success cfg tr attempt s r dt Htr Hok). cbn [fst].
      destruct (update_frame cfg true (received dt r s)) as (-> & _).
      rewrite clock_received. lra.
    + destruct (Z.eq_dec (status r) 429) as [H429 | H429];
        [| destruct (Z.eq_dec (status r) 401) as [H401 | H401];
           [| destruct (Z_lt_le_dec (status r) 500) as [H4 | H5]]].
      * rewrite (attempt_429 cfg tr attempt s r dt Htr H429).
        destruct (attempt <? max_retries cfg); cbn [fst]; frame'.
        -- match goal with |- context [Qmax ?d 0] => specialize (Hw d) end. lra.
        -- lra.
      * rewrite (attempt_401 cfg tr attempt s r dt Htr H401).
        destruct (attempt <? max_retries cfg); cbn [fst]; frame'.
        -- match goal with |- context [Qmax ?d 0] => specialize (Hw d) end. lra.
        -- lra.
      * rewrite (attempt_4xx cfg tr attempt s r dt Htr (conj Hfail H4) H401 H429).
        destruct (attempt <? max_retries cfg); cbn [fst]; frame'.
        -- match goal with |- context [Qmax ?d 0] => specialize (Hw d) end. lra.
        -- lra.
      * rewrite (attempt_5xx cfg tr attempt s r dt Htr H5).
        destruct (attempt <? max_retries cfg); cbn [fst]; frame'.
        -- match goal with |- context [Qmax ?d 0] => specialize (Hw d) end. lra.
        -- lra.
  - rewrite (attempt_timed_out cfg tr attempt s dt Htr).
    destruct (attempt <? max_retries cfg); cbn [fst]; frame'.
    + match goal with |- context [Qmax ?d 0] => specialize (Hw d) end. lra.
    + lra.
  - rewrite (attempt_failed cfg tr attempt s name text dt Htr).
    destruct (attempt <? max_retries cfg); cbn [fst]; frame'.
    + match goal with |- context [Qmax ?d 0] => specialize (Hw d) end. lra.
    + lra.
Qed.

Lemma loop_window (c0 : Q) n :
  forall attempt s,
    (c0 <= clock s)%Q ->
    Forall (fun t => (c0 - t < rate_limit_window)%Q) (rate_limit_requests s) ->
    Forall (fun t => (c0 - t < rate_limit_window)%Q)
           (rate_limit_requests (fst (for_attempts cfg tr n attempt s))).
Proof.
  induction n as [| n IH]; intros attempt s Hc Hall; cbn [for_attempts].
  - exact Hall.
  - unfold bind.
    pose proof (attempt_clock attempt s) as Hclock.
    destruct (attempt_facts cfg tr attempt s) as (_ & Hreq & _).
    assert (Hall' : Forall (fun t => (c0 - t < rate_limit_window)%Q)
                           (rate_limit_requests (fst (attempt_iter cfg tr attempt s)))).
    { rewrite Hreq. apply Forall_app. split; [exact Hall |].
      constructor; [| constructor]. unfold rate_limit_window. lra. }
    destruct (attempt_iter cfg tr attempt s) as [s1 [[| r] | e]]; cbn [fst snd ret] in *.
    + apply IH; [lra | exact Hall'].
    + exact Hall'.
    + exact Hall'.
Qed.

(** X20.  When the breaker lets the call through and the transport
    takes no negative time, every time stamp left in the window after
    the call is less than 60 before the time at which the call began:
    the older ones are dropped on entry, and the attempts of the call
    are recorded at or after that time. *)
Theorem window_holds_recent_requests (s : State) :
  snd (_check_circuit_breaker cfg s) = Ok tt ->
  Forall (fun t => (clock s - t < 60)%Q)
         (rate_limit_requests (fst (_make_request cfg tr s))).
Proof.
  intros Hcb. rewrite <- check_after_initialize in Hcb.
  assert (Hclock : clock (fst (_check_circuit_breaker cfg (fst (initialize s)))) = clock s)
    by apply (before_rate_limit cfg s).
  unfold _make_request. unfold bind at 1.
  assert (Hi : initialize s = (fst (initialize s), Ok tt))
    by (unfold initialize; cbn; destruct (session s); reflexivity).
  rewrite Hi. unfold bind at 1.
  destruct (_check_circuit_breaker cfg (fst (initialize s))) as [s2 res];
    cbn [fst snd] in *. subst res. unfold bind at 1.
  assert (Hpruned : Forall (fun t => (clock s - t < rate_limit_window)%Q)
                           (rate_limit_requests (fst (_check_rate_limit s2))) /\
                    clock (fst (_check_rate_limit s2)) = clock s).
  { unfold _check_rate_limit, bind, time_time, modify, get. cbn.
    assert (Hf : Forall (fun t => (clock s - t < rate_limit_window)%Q)
                   (filter (fun req_time => Qltb (clock s2 - req_time) rate_limit_window)
                           (rate_limit_requests s2))).
    { apply Forall_forall. intros t Ht. apply filter_In in Ht. destruct Ht as (_ & Ht).
      apply Qltb_true in Ht. rewrite <- Hclock. exact Ht. }
    destruct (rate_limited _ _); [destruct (rate_limit_reset s2) |]; cbn;
      (split; [exact Hf | exact Hclock]). }
  destruct Hpruned as (Hall & Hc).
  destruct (_check_rate_limit s2) as [s3 [[] | e]]; cbn [fst snd] in *.
  - apply (loop_window (clock s)); [rewrite Hc; apply Qle_refl | exact Hall].
  - exact Hall.
Qed.

End Window.

(** ** The default headers *)

Lemma lookup_dict_set_same key value h :
  lookup key (dict_set key value h) = Some value.
Proof.
  induction h as [| [k v] h IH]; cbn.
  - rewrite String.eqb_refl. reflexivity.
  - destruct (String.eqb k key) eqn:E; cbn; rewrite E; [reflexivity | exact IH].
Qed.

Lemma lookup_dict_set_other key key' value h :
  key' <> key ->
  lookup key' (dict_set key value h) = lookup key' h.
Proof.
  intros Hne. induction h as [| [k v] h IH]; cbn.
  - destruct (String.eqb_spec key key'); [congruence | reflexivity].
  - destruct (String.eqb_spec k key) as [-> | Hk]; cbn.
    + destruct (String.eqb_spec key key'); [congruence | reflexivity].
    + rewrite IH. reflexivity.
Qed.

(** X21.  A token that is set and not empty takes precedence over an
    API key: the headers carry "Bearer " followed by the token under the
    configured header name, and no X-API-Key header, whatever the API
    key is. *)
Theorem token_takes_precedence (c : Credentials) (token : string) :
  auth_token c = Some token ->
  token <> EmptyString ->
  lookup (auth_header c) (_get_default_headers c) = Some ("Bearer " ++ token)%string /\
  (auth_header c <> "X-API-Key"%string ->
   lookup "X-API-Key" (_get_default_headers c) = None).
Proof.
  intros Ht Hne. unfold _get_default_headers. rewrite Ht.
  destruct token as [| ch token]; [congruence |]. cbn [truthy]. split.
  - apply lookup_dict_set_same.
  - intros Hk. rewrite lookup_dict_set_other by congruence. reflexivity.
Qed.

(** X22.  Without a usable token (none, or the empty string), a
    non-empty API key is sent as X-API-Key, and the configured
    authorization header is not added: looking it up gives what the
    three fixed headers give. *)
Theorem api_key_without_token (c : Credentials) (key : string) :
  truthy (auth_token c) = false ->
  api_key c = Some key ->
  key <> EmptyString ->
  lookup "X-API-Key" (_get_default_headers c) = Some key /\
  (auth_header c <> "X-API-Key"%string ->
   lookup (auth_header c) (_get_default_headers c)
   = lookup (auth_header c)
       [("User-Agent", "APIClient/1.0"); ("Accept", "application/json");
        ("Content-Type", "application/json")]%string).
Proof.
  intros Ht Hk Hne. unfold _get_default_headers. rewrite Ht, Hk.
  destruct key as [| ch key]; [congruence |]. cbn [truthy]. split.
  - apply lookup_dict_set_same.
  - intros Hh. apply lookup_dict_set_other. exact Hh.
Qed.

(** ** Configuration values *)

Lemma split_dot_nonempty s : split_dot s <> [].
Proof.
  destruct s as [| c s]; cbn; [discriminate |].
  destruct (Ascii.eqb c "."); [discriminate |].
  destruct (split_dot s); discriminate.
Qed.

Lemma split_dot_no_dot s : no_dot s = true -> split_dot s = [s].
Proof.
  induction s as [| c s IH]; cbn; [reflexivity |].
  intros H. apply andb_true_iff in H. destruct H as (Hc & Hs).
  apply negb_true_iff in Hc. rewrite Hc, (IH Hs). reflexivity.
Qed.

Lemma split_dot_prefix a p :
  no_dot a = true ->
  split_dot (a ++ String "." p) = a :: split_dot p.
Proof.
  induction a as [| c a IH]; cbn.
  - reflexivity.
  - intros H. apply andb_true_iff in H. destruct H as (Hc & Ha).
    apply negb_true_iff in Hc. rewrite Hc, (IH Ha). reflexivity.
Qed.

(** X23.  A dotted path is followed key by key: when the first segment
    is a key of the dictionary, the value found is what the rest of the
    path gives in the value of that key; when it is not, or when the
    configuration is not a dictionary, the default is returned. *)
Theorem get_config_value_nested (config : cvalue) (a p : string) (default : cvalue) :
  no_dot a = true ->
  get_config_value config (a ++ String "." p) default
  = match getitem config a with
    | Some v => get_config_value v p default
    | None => default
    end.
Proof.
  intros Ha. unfold get_config_value. rewrite (split_dot_prefix a p Ha).
  cbn [walk]. destruct (getitem config a); reflexivity.
Qed.

(** X24.  On a value that is not a dictionary (a number, a string, a
    list, [None]), every path gives the default: the [TypeError] of the
    subscript is swallowed. *)
Theorem get_config_value_not_a_dict (config : cvalue) (path : string) (default : cvalue) :
  (forall d, config <> CDict d) ->
  get_config_value config path default = default.
Proof.
  intros Hnd. unfold get_config_value.
  pose proof (split_dot_nonempty path) as Hne.
  destruct (split_dot path) as [| k ks]; [congruence |].
  cbn [walk]. destruct config; cbn; try reflexivity.
  exfalso. apply (Hnd d). reflexivity.
Qed.

(** X25.  A key without a dot that is missing from the dictionary gives
    the default, and a key that is present gives its value, also when
    that value is [None]. *)
Theorem get_config_value_flat (d : list (string * cvalue)) (key : string) (default : cvalue) :
  no_dot key = true ->
  get_config_value (CDict d) key default
  = match dict_lookup key d with
    | Some v => v
    | None => default
    end.
Proof.
  intros Hk. unfold get_config_value. rewrite (split_dot_no_dot key Hk).
  cbn. destruct (dict_lookup key d); reflexivity.
Qed.

(** ** The further properties at work *)

Lemma default_powers_in_range : no_overflow default_config.
Proof.
  intros n Hn. cbn in Hn.
  assert (Hcase : n = 0 \/ n = 1 \/ n = 2) by lia.
  destruct Hcase as [-> | [-> | ->]]; vm_compute; discriminate.
Defined.


Lemma refused_call_counts_nothing_witness :
  snd (admission threshold2 tripped) = Raise circuit_open /\
  snd (_make_request threshold2 always_ok tripped) = Raise circuit_open /\
  request_count (fst (_make_request threshold2 always_ok tripped)) = request_count tripped /\
  error_count (fst (_make_request threshold2 always_ok tripped)) = error_count tripped /\
  transport_calls (fst (_make_request threshold2 always_ok tripped)) = transport_calls tripped /\
  slept (fst (_make_request threshold2 always_ok tripped)) = slept tripped.
Proof.
  split; [reflexivity |].
  apply (refused_call_counts_nothing threshold2 always_ok tripped circuit_open).
  reflexivity.
Defined.

Lemma error_counted_after_all_attempts_witness :
  0 <= max_retries default_config /\
  snd (admission default_config (init 0)) = Ok tt /\
  no_overflow default_config /\
  error_count (fst (_make_request default_config always_unavailable (init 0)))
  = error_count (init 0) + 1.
Proof.
  split; [discriminate |]. split; [reflexivity |].
  split; [exact default_powers_in_range |].
  assert (H0 : 0 <= max_retries default_config) by discriminate.
  apply (error_counted_after_all_attempts default_config always_unavailable (init 0)
           H0 eq_refl default_powers_in_range).
Defined.


Lemma no_attempt_without_retries_witness :
  max_retries no_attempts < 0 /\
  snd (admission no_attempts (init 0)) = Ok tt /\
  snd (_make_request no_attempts always_ok (init 0)) = Ok None /\
  transport_calls (fst (_make_request no_attempts always_ok (init 0))) = 0%nat.
Proof.
  split; [reflexivity |]. split; [reflexivity |].
  destruct (no_attempt_without_retries no_attempts always_ok (init 0) eq_refl eq_refl)
    as (A & B & _).
  split; assumption.
Defined.

Lemma reachable_breaker_inv_witness :
  reachable threshold2
    (fst (_make_request threshold2 always_not_found (set_clock 5 (init 0)))) /\
  breaker_inv threshold2
    (fst (_make_request threshold2 always_not_found (set_clock 5 (init 0)))).
Proof.
  assert (H : reachable threshold2
                (fst (_make_request threshold2 always_not_found (set_clock 5 (init 0)))))
    by (apply reach_request, reach_time, reach_init).
  split; [exact H | apply (reachable_breaker_inv threshold2 _ H)].
Defined.

Lemma disabled_breaker_is_inert_witness :
  circuit_breaker_enabled breaker_off = false /\
  same_breaker (init 0) (fst (_make_request breaker_off always_not_found (init 0))) /\
  snd (_make_request breaker_off always_not_found (init 0)) <> Raise circuit_open.
Proof.
  split; [reflexivity |].
  apply (disabled_breaker_is_inert breaker_off always_not_found eq_refl (init 0)).
Defined.

Lemma failures_accumulate_across_successes_witness :
  circuit_breaker_enabled threshold2 = true /\
  circuit_breaker_state (init 0) = st_closed /\
  0 < failures_in [false; true; true; false] /\
  circuit_breaker_threshold threshold2
  <= circuit_breaker_failure_count (init 0) + failures_in [false; true; true; false] /\
  circuit_breaker_state (report_all threshold2 [false; true; true; false] (init 0)) = st_open /\
  circuit_breaker_failure_count (report_all threshold2 [false; true; true; false] (init 0))
  = circuit_breaker_failure_count (init 0) + failures_in [false; true; true; false].
Proof.
  split; [reflexivity |]. split; [reflexivity |]. split; [reflexivity |].
  split; [discriminate |].
  apply (failures_accumulate_across_successes threshold2 eq_refl
           [false; true; true; false] (init 0)).
  - reflexivity.
  - reflexivity.
  - discriminate.
Defined.

Lemma still_refused_at_cooldown_witness :
  circuit_breaker_enabled threshold2 = true /\
  circuit_breaker_state at_cooldown = st_open /\
  circuit_breaker_last_failure_time at_cooldown = Some 2%Q /\
  (clock at_cooldown - 2 == circuit_breaker_timeout threshold2)%Q /\
  snd (_make_request threshold2 always_ok at_cooldown) = Raise circuit_open /\
  circuit_breaker_state (fst (_make_request threshold2 always_ok at_cooldown)) = st_open /\
  transport_calls (fst (_make_request threshold2 always_ok at_cooldown))
  = transport_calls at_cooldown.
Proof.
  split; [reflexivity |]. split; [reflexivity |]. split; [reflexivity |].
  split; [reflexivity |].
  apply (still_refused_at_cooldown threshold2 eq_refl always_ok at_cooldown 2%Q).
  - reflexivity.
  - reflexivity.
  - reflexivity.
Defined.


Lemma attempt_without_rate_headers_keeps_limits_witness :
  (forall r dt, always_unavailable (transport_calls out_of_quota) = (Responded r, dt) ->
                lookup "X-RateLimit-Remaining" (resp_headers r) = None /\
                lookup "X-RateLimit-Reset" (resp_headers r) = None) /\
  rate_limit_remaining (fst (attempt_iter default_config always_unavailable 0 out_of_quota))
  = Some 0 /\
  rate_limit_reset (fst (attempt_iter default_config always_unavailable 0 out_of_quota))
  = Some 100.
Proof.
  assert (H : forall r dt,
            always_unavailable (transport_calls out_of_quota) = (Responded r, dt) ->
            lookup "X-RateLimit-Remaining" (resp_headers r) = None /\
            lookup "X-RateLimit-Reset" (resp_headers r) = None).
  { intros r dt Heq. injection Heq as <- _. split; reflexivity. }
  split; [exact H |].
  apply (attempt_without_rate_headers_keeps_limits default_config always_unavailable 0
           out_of_quota H).
Defined.


Lemma health_check_true_means_answered_witness :
  snd (health_check default_config flaky (init 0)) = Ok true /\
  exists j r,
    (transport_calls (init 0) <= j
     < transport_calls (fst (health_check default_config flaky (init 0))))%nat /\
    fst (flaky j) = Responded r /\
    status r < 400.
Proof.
  split; [reflexivity |].
  apply (health_check_true_means_answered default_config flaky (init 0)). reflexivity.
Defined.

Lemma health_check_refused_by_breaker_witness :
  circuit_breaker_enabled threshold2 = true /\
  circuit_breaker_state tripped = st_open /\
  circuit_breaker_last_failure_time tripped = Some 2%Q /\
  (clock tripped - 2 <= circuit_breaker_timeout threshold2)%Q /\
  snd (health_check threshold2 always_ok tripped) = Ok false /\
  transport_calls (fst (health_check threshold2 always_ok tripped)) = transport_calls tripped /\
  circuit_breaker_state (fst (health_check threshold2 always_ok tripped)) = st_open.
Proof.
  split; [reflexivity |]. split; [reflexivity |]. split; [reflexivity |].
  split; [discriminate |].
  apply (health_check_refused_by_breaker threshold2 always_ok tripped 2%Q).
  - reflexivity.
  - reflexivity.
  - reflexivity.
  - discriminate.
Defined.

Lemma health_check_first_answer_witness :
  0 <= max_retries default_config /\
  snd (admission default_config (init 0)) = Ok tt /\
  fst (always_ok (transport_calls (init 0))) = Responded (mkResponse 200 [] "ok") /\
  status (mkResponse 200 [] "ok") < 400 /\
  snd (health_check default_config always_ok (init 0)) = Ok true /\
  transport_calls (fst (health_check default_config always_ok (init 0)))
  = S (transport_calls (init 0)).
Proof.
  assert (H0 : 0 <= max_retries default_config) by discriminate.
  split; [exact H0 |]. split; [reflexivity |]. split; [reflexivity |].
  split; [reflexivity |].
  apply (health_check_first_answer default_config always_ok (init 0)
           (mkResponse 200 [] "ok") H0); reflexivity.
Defined.

Lemma window_holds_recent_requests_witness :
  (forall k, (0 <= snd (always_ok k))%Q) /\
  snd (_check_circuit_breaker default_config stale_window) = Ok tt /\
  Forall (fun t => (clock stale_window - t < 60)%Q)
         (rate_limit_requests (fst (_make_request default_config always_ok stale_window))).
Proof.
  assert (H : forall k, (0 <= snd (always_ok k))%Q) by (intros k; apply Qle_refl).
  split; [exact H |]. split; [reflexivity |].
  apply (window_holds_recent_requests default_config always_ok H stale_window).
  reflexivity.
Defined.

Lemma token_takes_precedence_witness :
  auth_token both_credentials = Some "s3cret"%string /\
  "s3cret"%string <> EmptyString /\
  lookup (auth_header both_credentials) (_get_default_headers both_credentials)
  = Some "Bearer s3cret"%string /\
  lookup "X-API-Key" (_get_default_headers both_credentials) = None.
Proof.
  split; [reflexivity |]. split; [discriminate |].
  destruct (token_takes_precedence both_credentials "s3cret") as (A & B).
  - reflexivity.
  - discriminate.
  - split; [exact A | apply B; discriminate].
Defined.

Lemma api_key_without_token_witness :
  truthy (auth_token key_only) = false /\
  api_key key_only = Some "k3y"%string /\
  "k3y"%string <> EmptyString /\
  lookup "X-API-Key" (_get_default_headers key_only) = Some "k3y"%string.
Proof.
  split; [reflexivity |]. split; [reflexivity |]. split; [discriminate |].
  apply (api_key_without_token key_only "k3y").
  - reflexivity.
  - reflexivity.
  - discriminate.
Defined.

Lemma get_config_value_nested_witness :
  no_dot "api" = true /\
  get_config_value sample_config "api.timeout" (CInt 30) = CInt 10 /\
  get_config_value sample_config "api.retries" (CInt 3) = CInt 3.
Proof.
  split; [reflexivity |]. split.
  - etransitivity;
      [exact (get_config_value_nested sample_config "api" "timeout" (CInt 30) eq_refl) |].
    reflexivity.
  - etransitivity;
      [exact (get_config_value_nested sample_config "api" "retries" (CInt 3) eq_refl) |].
    reflexivity.
Defined.

Lemma get_config_value_not_a_dict_witness :
  (forall d, CStr "plain" <> CDict d) /\
  get_config_value (CStr "plain") "api.timeout" (CInt 30) = CInt 30.
Proof.
  assert (H : forall d, CStr "plain" <> CDict d) by (intros d; discriminate).
  split; [exact H |].
  apply (get_config_value_not_a_dict (CStr "plain") "api.timeout" (CInt 30) H).
Defined.

Lemma get_config_value_flat_witness :
  no_dot "debug" = true /\
  get_config_value sample_config "debug" (CBool false) = CBool true /\
  get_config_value sample_config "verbose" (CBool false) = CBool false.
Proof.
  split; [reflexivity |]. split.
  - etransitivity; [exact (get_config_value_flat _ "debug" (CBool false) eq_refl) |].
    reflexivity.
  - etransitivity; [exact (get_config_value_flat _ "verbose" (CBool false) eq_refl) |].
    reflexivity.
Defined.
